(** * Poker hand ranking (poker.py): a shallow embedding and its properties

    The program ranks poker hands given as lists of two-character tokens
    such as ["AS"; "TD"].  Python integers are modelled as [Z], tuples
    [(rank, suit)] as pairs, lists as [list], the [None]/tuple/int results
    of the detectors as [option rankval], and raised exceptions as the
    [Err] case of [result]. *)

From Stdlib Require Import ZArith String Ascii List Bool Lia Sorted Permutation.
Import ListNotations.
Local Open Scope Z_scope.

(** ** The pieces of the Python runtime the program relies on *)
Module Py.

Inductive exn : Type := KeyError | IndexError | TypeError | ValueError.

Inductive result (A : Type) : Type :=
| Ok (a : A)
| Err (e : exn).
Arguments Ok {A} a.
Arguments Err {A} e.

Definition bind {A B : Type} (m : result A) (f : A -> result B) : result B :=
  match m with
  | Ok a => f a
  | Err e => Err e
  end.

Notation "x <- m ;; k" := (bind m (fun x => k))
  (at level 61, m at next level, right associativity).

(** A card after parsing is the tuple [(rank, suit)]. *)
Abbreviation card := (Z * Z)%type.

(** What a detector hands back: the bare integer [ROYAL_FL] or a tuple
    [(category, tiebreak)]; Python's [None] is [None : option rankval]. *)
Inductive rankval : Type :=
| RInt (n : Z)
| RTuple (c t : Z).

(** [d[k]] on a dict literal with string keys. *)
Fixpoint dict_get (d : list (string * Z)) (k : string) : result Z :=
  match d with
  | [] => Err KeyError
  | (k', v) :: rest => if String.eqb k' k then Ok v else dict_get rest k
  end.

(** [d[k]] on a dict literal with integer keys. *)
Fixpoint int_dict_get (d : list (Z * Z)) (k : Z) : result Z :=
  match d with
  | [] => Err KeyError
  | (k', v) :: rest => if k' =? k then Ok v else int_dict_get rest k
  end.

(** [x[0:-1]]: every character but the last (empty for short strings). *)
Fixpoint slice_0_m1 (x : string) : string :=
  match x with
  | EmptyString => EmptyString
  | String c rest =>
      match rest with
      | EmptyString => EmptyString
      | String _ _ => String c (slice_0_m1 rest)
      end
  end.

Fixpoint last_char (x : string) : option ascii :=
  match x with
  | EmptyString => None
  | String c rest =>
      match rest with
      | EmptyString => Some c
      | String _ _ => last_char rest
      end
  end.

(** [x[-1]]: the last character as a one-character string. *)
Definition index_m1 (x : string) : result string :=
  match last_char x with
  | Some c => Ok (String c EmptyString)
  | None => Err IndexError
  end.

(** [a < b] on tuples of two integers: lexicographic. *)
Definition tuple_ltb (a b : Z * Z) : bool :=
  (fst a <? fst b) || ((fst a =? fst b) && (snd a <? snd b)).

Definition tuple_leb (a b : Z * Z) : bool := negb (tuple_ltb b a).

(** [sorted(...)] on integer tuples.  Equal tuples are indistinguishable,
    so any stable comparison sort gives the same list; insertion sort is
    used here. *)
Fixpoint insert_sorted (x : card) (l : list card) : list card :=
  match l with
  | [] => [x]
  | y :: rest => if tuple_ltb y x then y :: insert_sorted x rest else x :: l
  end.

Fixpoint sorted (l : list card) : list card :=
  match l with
  | [] => []
  | x :: rest => insert_sorted x (sorted rest)
  end.

(** [bisect.bisect_right(a, x)]: the library's binary search
    [while lo < hi: mid = (lo+hi)//2; if x < a[mid]: hi = mid else: lo = mid+1].
    The interval shrinks at every turn, so [length a] turns are enough. *)
Fixpoint bisect_loop (fuel : nat) (a : list card) (x : card) (lo hi : nat) : nat :=
  match fuel with
  | O => lo
  | S fuel' =>
      if (lo <? hi)%nat then
        let mid := ((lo + hi) / 2)%nat in
        if tuple_ltb x (nth mid a (0, 0))
        then bisect_loop fuel' a x lo mid
        else bisect_loop fuel' a x (S mid) hi
      else lo
  end.

Definition bisect_right (a : list card) (x : card) : nat :=
  bisect_loop (length a) a x 0%nat (length a).

(** [bisect.insort(a, x)]: [a.insert(bisect_right(a, x), x)]. *)
Definition insort (a : list card) (x : card) : list card :=
  let lo := bisect_right a x in
  firstn lo a ++ x :: skipn lo a.

(** List indexing [l[j]] with Python's negative indices. *)
Definition norm_index (n : nat) (j : Z) : result nat :=
  if (0 <=? j) && (j <? Z.of_nat n) then Ok (Z.to_nat j)
  else if (- Z.of_nat n <=? j) && (j <? 0) then Ok (Z.to_nat (j + Z.of_nat n))
  else Err IndexError.

Definition list_get {A : Type} (l : list A) (j : Z) : result A :=
  k <- norm_index (length l) j ;;
  match nth_error l k with
  | Some v => Ok v
  | None => Err IndexError
  end.

Definition list_set {A : Type} (l : list A) (j : Z) (v : A) : result (list A) :=
  k <- norm_index (length l) j ;;
  Ok (firstn k l ++ v :: skipn (S k) l).

(** [a > b] between results of [hand_rank] (Python 3): tuples compare
    lexicographically, integers numerically, and mixing kinds (or
    comparing [None]) raises [TypeError]. *)
Definition py_gt (a b : option rankval) : result bool :=
  match a, b with
  | Some (RInt x), Some (RInt y) => Ok (y <? x)
  | Some (RTuple c t), Some (RTuple c' t') => Ok (tuple_ltb (c', t') (c, t))
  | _, _ => Err TypeError
  end.

(** [max(items, key=key)]: keys are computed as the items are visited, the
    running maximum is replaced only by a strictly greater key, and an
    empty sequence raises [ValueError]. *)
Section Max.
Context {A : Type} (key : A -> result (option rankval)).

Fixpoint max_loop (items : list A) (maxitem : A) (maxval : option rankval)
  : result A :=
  match items with
  | [] => Ok maxitem
  | item :: rest =>
      val <- key item ;;
      gt <- py_gt val maxval ;;
      if gt then max_loop rest item val else max_loop rest maxitem maxval
  end.

Definition max_key (items : list A) : result A :=
  match items with
  | [] => Err ValueError
  | item :: rest => val <- key item ;; max_loop rest item val
  end.
End Max.

(** A store of list objects, for the one place where the program copies a
    list and then mutates the copy.  A location is a position in the store;
    allocation appends. *)
Abbreviation loc := nat.
Abbreviation heap := (list (list card)).

Definition heap_update (hp : heap) (l : loc) (v : list card) : heap :=
  firstn l hp ++ v :: skipn (S l) hp.

(** [copy.deepcopy(obj)] of a list of (immutable) tuples: a new list object. *)
Definition deepcopy (hp : heap) (l : loc) : option (loc * heap) :=
  match nth_error hp l with
  | Some v => Some (length hp, hp ++ [v])
  | None => None
  end.

(** [bisect.insort(obj, x)] acting on the list object at [l]. *)
Definition heap_insort (hp : heap) (l : loc) (x : card) : option heap :=
  match nth_error hp l with
  | Some a => Some (heap_update hp l (insort a x))
  | None => None
  end.

(** [obj[k]] for the list object at [l]. *)
Definition heap_item (hp : heap) (l : loc) (k : nat) : option card :=
  match nth_error hp l with
  | Some a => nth_error a k
  | None => None
  end.

End Py.

(** ** The program *)
Module Poker.
Import Py.

Definition HIGH_CARD : Z := 0.
Definition ONE_PAIR : Z := 1.
Definition TWO_PAIR : Z := 2.
Definition THREE_OK : Z := 3.
Definition STRAIGHT : Z := 4.
Definition FLUSH : Z := 5.
Definition FULL_H : Z := 6.
Definition FOUR_OK : Z := 7.
Definition STRAIGHT_FL : Z := 8.
Definition ROYAL_FL : Z := 9.

Definition card_ranks : list (string * Z) :=
  [ ("A", 14); ("K", 13); ("Q", 12); ("J", 11); ("T", 10); ("9", 9);
    ("8", 8); ("7", 7); ("6", 6); ("5", 5); ("4", 4); ("3", 3); ("2", 2);
    ("1", 1) ]%string.

Definition LOW_ACE : Z := 0.

Definition suits : list (string * Z) :=
  [ ("C", 0); ("S", 1); ("D", 2); ("H", 3) ]%string.

(** [card_ranks["A"]], a lookup that cannot fail. *)
Definition card_ranks_A : Z :=
  Eval cbv in
    match dict_get card_ranks "A"%string with
    | Ok v => v
    | Err _ => 0
    end.

(** *** scrub_hand *)

(** One element of the generator: [(card_ranks[x[0:-1]], suits[x[-1]])],
    evaluated left to right. *)
Definition scrub_token (x : string) : result card :=
  r <- dict_get card_ranks (slice_0_m1 x) ;;
  c <- index_m1 x ;;
  s <- dict_get suits c ;;
  Ok (r, s).

Fixpoint scrub_tokens (hand : list string) : result (list card) :=
  match hand with
  | [] => Ok []
  | x :: rest =>
      c <- scrub_token x ;;
      cs <- scrub_tokens rest ;;
      Ok (c :: cs)
  end.

Definition scrub_hand (hand : list string) : result (list card) :=
  hand_scr <- scrub_tokens hand ;;
  Ok (sorted hand_scr).

(** *** low_aces *)

(** The loop over [reversed(hand)], with [hand_low_aces] as accumulator. *)
Fixpoint low_aces_loop (cards : list card) (hand_low_aces : list card)
  : list card :=
  match cards with
  | [] => hand_low_aces
  | (i, j) :: rest =>
      if i <? card_ranks_A then hand_low_aces
      else if card_ranks_A <? i then low_aces_loop rest hand_low_aces
      else low_aces_loop rest (insort hand_low_aces (LOW_ACE, j))
  end.

Definition low_aces (hand : list card) : list card :=
  low_aces_loop (rev hand) hand.

(** The same function on the store: [hand] is a location, the copy is a
    new location, the reverse iterator reads [hand[k-1]] from the store at
    every turn (and stops if that index is no longer inside the list) and
    [insort] mutates the object at [hand_low_aces]. *)
Fixpoint low_aces_iter (k : nat) (hp : heap) (hand hand_low_aces : loc)
  : option heap :=
  match k with
  | O => Some hp
  | S k' =>
      match heap_item hp hand k' with
      | None => Some hp
      | Some (i, j) =>
          if i <? card_ranks_A then Some hp
          else if card_ranks_A <? i then low_aces_iter k' hp hand hand_low_aces
          else
            match heap_insort hp hand_low_aces (LOW_ACE, j) with
            | Some hp' => low_aces_iter k' hp' hand hand_low_aces
            | None => None
            end
      end
  end.

Definition low_aces_st (hp : heap) (hand : loc) : option (loc * heap) :=
  match deepcopy hp hand with
  | None => None
  | Some (hand_low_aces, hp1) =>
      match nth_error hp1 hand with
      | None => None
      | Some a =>
          match low_aces_iter (length a) hp1 hand hand_low_aces with
          | Some hp2 => Some (hand_low_aces, hp2)
          | None => None
          end
      end
  end.

(** *** straight_flush *)

(** A streak [[first, last]] is [Some (first, last)]; the initial
    [[None, None]] is [None] (both fields are set together). *)
Fixpoint straight_flush_loop (cards : list card) (streak : list (option (Z * Z)))
  : result (option rankval) :=
  match cards with
  | [] => Ok None
  | (i, j) :: rest =>
      sj <- list_get streak j ;;
      match sj with
      | None =>
          streak' <- list_set streak j (Some (i, i)) ;;
          straight_flush_loop rest streak'
      | Some (first, last) =>
          if i + 1 <? last then
            streak' <- list_set streak j (Some (i, i)) ;;
            straight_flush_loop rest streak'
          else if last =? i + 1 then
            streak' <- list_set streak j (Some (first, i)) ;;
            if first - i =? 4 then Ok (Some (RTuple STRAIGHT_FL first))
            else straight_flush_loop rest streak'
          else straight_flush_loop rest streak
      end
  end.

Definition straight_flush (hand : list card) : result (option rankval) :=
  hand_rank <- straight_flush_loop (rev hand) [None; None; None; None] ;;
  match hand_rank with
  | Some (RTuple _ t) =>
      if t =? card_ranks_A then Ok (Some (RInt ROYAL_FL)) else Ok hand_rank
  | _ => Ok hand_rank
  end.

(** *** of_kind *)

Definition kind_to_rank : list (Z * Z) :=
  [ (2, ONE_PAIR); (3, THREE_OK); (4, FOUR_OK) ].

(** The streak [[card_rank, occurrences]] is [Some (rank, count)]. *)
Fixpoint of_kind_loop (cards : list card) (num : Z) (streak : option (Z * Z))
  : result (option rankval) :=
  match cards with
  | [] => Ok None
  | (i, j) :: rest =>
      match streak with
      | None => of_kind_loop rest num (Some (i, 1))
      | Some (r, c) =>
          if negb (r =? i) then of_kind_loop rest num (Some (i, 1))
          else
            if c + 1 =? num then
              cat <- int_dict_get kind_to_rank num ;;
              Ok (Some (RTuple cat i))
            else of_kind_loop rest num (Some (r, c + 1))
      end
  end.

Definition of_kind (hand : list card) (num : Z) : result (option rankval) :=
  of_kind_loop (rev hand) num None.

(** *** full_house *)

Definition full_counts (c0 c1 : Z) : bool :=
  ((c0 =? 2) && (c1 =? 3)) || ((c0 =? 3) && (c1 =? 2)).

(** [s0] and [s1] are [streak[0]] and [streak[1]].  The assignment
    [streak[0] = streak[1]] is followed at once by [streak[1] = [i, 1]],
    a new list, so the two slots never hold the same object. *)
Fixpoint full_house_loop (cards : list card) (s0 s1 : option (Z * Z))
  : option rankval :=
  match cards with
  | [] => None
  | (i, j) :: rest =>
      match s0 with
      | None => full_house_loop rest (Some (i, 1)) s1
      | Some (r0, c0) =>
          if r0 =? i then
            match s1 with
            | Some (r1, c1) =>
                if full_counts (c0 + 1) c1 then Some (RTuple FULL_H r0)
                else full_house_loop rest (Some (r0, c0 + 1)) s1
            | None => full_house_loop rest (Some (r0, c0 + 1)) s1
            end
          else
            match s1 with
            | None => full_house_loop rest s0 (Some (i, 1))
            | Some (r1, c1) =>
                if negb (r1 =? i) then full_house_loop rest s1 (Some (i, 1))
                else
                  if full_counts c0 (c1 + 1) then Some (RTuple FULL_H r0)
                  else full_house_loop rest s0 (Some (r1, c1 + 1))
            end
      end
  end.

Definition full_house (hand : list card) : option rankval :=
  full_house_loop (rev hand) None None.

(** *** flush *)

(** A per-suit streak [[highest, count]] is [Some (highest, count)]. *)
Fixpoint flush_loop (cards : list card) (streak : list (option (Z * Z)))
  : result (option rankval) :=
  match cards with
  | [] => Ok None
  | (i, j) :: rest =>
      sj <- list_get streak j ;;
      match sj with
      | None =>
          streak' <- list_set streak j (Some (i, 1)) ;;
          flush_loop rest streak'
      | Some (highest, count) =>
          streak' <- list_set streak j (Some (highest, count + 1)) ;;
          if count + 1 =? 5 then Ok (Some (RTuple FLUSH highest))
          else flush_loop rest streak'
      end
  end.

Definition flush (hand : list card) : result (option rankval) :=
  flush_loop (rev hand) [None; None; None; None].

(** *** straight *)

Fixpoint straight_loop (cards : list card) (streak : option (Z * Z))
  : option rankval :=
  match cards with
  | [] => None
  | (i, j) :: rest =>
      match streak with
      | None => straight_loop rest (Some (i, i))
      | Some (first, last) =>
          if i + 1 <? last then straight_loop rest (Some (i, i))
          else if last =? i then straight_loop rest streak
          else if last =? i + 1 then
            if first - i =? 4 then Some (RTuple STRAIGHT first)
            else straight_loop rest (Some (first, i))
          else straight_loop rest streak
      end
  end.

Definition straight (hand : list card) : option rankval :=
  straight_loop (rev hand) None.

(** *** two_pair *)

Fixpoint two_pair_loop (cards : list card) (s0 s1 : option (Z * Z))
  : option rankval :=
  match cards with
  | [] => None
  | (i, j) :: rest =>
      match s0 with
      | None => two_pair_loop rest (Some (i, 1)) s1
      | Some (r0, c0) =>
          if r0 =? i then
            match s1 with
            | Some (r1, c1) =>
                if (c0 + 1 =? 2) && (c1 =? 2) then Some (RTuple FULL_H r0)
                else two_pair_loop rest (Some (r0, c0 + 1)) s1
            | None => two_pair_loop rest (Some (r0, c0 + 1)) s1
            end
          else
            match s1 with
            | None => two_pair_loop rest s0 (Some (i, 1))
            | Some (r1, c1) =>
                if negb (r1 =? i) then two_pair_loop rest s0 (Some (i, 1))
                else
                  if (c0 =? 2) && (c1 + 1 =? 2) then Some (RTuple TWO_PAIR r0)
                  else two_pair_loop rest s0 (Some (r1, c1 + 1))
            end
      end
  end.

Definition two_pair (hand : list card) : option rankval :=
  two_pair_loop (rev hand) None None.

(** *** high_card *)

(** [hand] is always a list here, so only [len(hand) > 0] is tested; the
    function falls off its end, returning [None], on the empty list. *)
Definition high_card (hand : list card) : option rankval :=
  match hand with
  | [] => None
  | c :: _ => Some (RTuple 0 (fst c))
  end.

(** *** hand_rank *)

(** [if h_rank is None: h_rank = detector(...)]. *)
Definition if_none (h_rank : option rankval) (detector : result (option rankval))
  : result (option rankval) :=
  match h_rank with
  | None => detector
  | Some _ => Ok h_rank
  end.

Definition hand_rank (hand : list string) : result (option rankval) :=
  hand_high_aces <- scrub_hand hand ;;
  let hand_both_aces := low_aces hand_high_aces in
  let h_rank := None in
  h_rank <- if_none h_rank (straight_flush hand_both_aces) ;;
  h_rank <- if_none h_rank (of_kind hand_high_aces 4) ;;
  h_rank <- if_none h_rank (Ok (full_house hand_high_aces)) ;;
  h_rank <- if_none h_rank (flush hand_high_aces) ;;
  h_rank <- if_none h_rank (Ok (straight hand_both_aces)) ;;
  h_rank <- if_none h_rank (of_kind hand_high_aces 3) ;;
  h_rank <- if_none h_rank (Ok (two_pair hand_high_aces)) ;;
  h_rank <- if_none h_rank (of_kind hand_high_aces 2) ;;
  h_rank <- if_none h_rank (Ok (high_card hand_high_aces)) ;;
  Ok h_rank.

(** *** poker *)

Definition poker (hands : list (list string)) : result (list string) :=
  max_key hand_rank hands.

End Poker.

Import Py Poker.


(** ** Hands used as concrete inputs (the ones of the program's own tests) *)
Module Hands.
Definition sf : list string := ["6C"; "7C"; "8C"; "9C"; "TC"]%string.
Definition fk : list string := ["9D"; "9H"; "9S"; "9C"; "7D"]%string.
Definition fh : list string := ["TD"; "TC"; "TH"; "7C"; "7D"]%string.
Definition s1 : list string := ["AS"; "2S"; "3S"; "4S"; "5C"]%string.
Definition s2 : list string := ["2C"; "3C"; "4C"; "5S"; "6S"]%string.
Definition tp : list string := ["5S"; "5D"; "9H"; "9C"; "6S"]%string.
Definition sh : list string := ["2S"; "3S"; "4S"; "6C"; "7D"]%string.
Definition t4 : list string := ["TH"; "TS"; "2D"; "2H"; "2S"; "KS"]%string.
Definition royal : list string := ["TH"; "JH"; "QH"; "KH"; "AH"]%string.
Definition kicker_above : list string := ["KS"; "9H"; "9C"; "5S"; "5D"]%string.
End Hands.

(** ** Orders on hands *)

(** Ascending by rank, the order the detectors expect of their argument. *)
Definition rank_sorted (h : list card) : Prop :=
  StronglySorted (fun a b => fst a <= fst b) h.

(** Descending by rank, the order in which the loops see the cards. *)
Definition rank_desc (l : list card) : Prop :=
  StronglySorted (fun a b => fst b <= fst a) l.

(** Ascending in Python's tuple order, what [sorted] produces. *)
Definition tuple_sorted (h : list card) : Prop :=
  StronglySorted (fun a b => tuple_leb a b = true) h.

(** Number of cards of rank [r]. *)
Definition count_rank (r : Z) (l : list card) : Z :=
  Z.of_nat (length (filter (fun c => fst c =? r) l)).

(** The spec's ordered dispatch: detectors tried in order, the first result
    that is not [None] wins. *)
Fixpoint first_non_none (detectors : list (result (option rankval)))
  : result (option rankval) :=
  match detectors with
  | [] => Ok None
  | d :: rest =>
      match d with
      | Err e => Err e
      | Ok (Some r) => Ok (Some r)
      | Ok None => first_non_none rest
      end
  end.

(** ** Tokens, as the specification describes them *)

(** The value of a rank character: the digits "1" to "9" stand for
    themselves, then T, J, Q, K, A. *)
Definition rank_value (c : ascii) : option Z :=
  let n := Z.of_N (N_of_ascii c) in
  if (49 <=? n) && (n <=? 57) then Some (n - 48)
  else if Ascii.eqb c "T" then Some 10
  else if Ascii.eqb c "J" then Some 11
  else if Ascii.eqb c "Q" then Some 12
  else if Ascii.eqb c "K" then Some 13
  else if Ascii.eqb c "A" then Some 14
  else None.

(** The rank characters of the claim: "2" to "9", T, J, Q, K, A. *)
Definition claimed_rank_value (c : ascii) : option Z :=
  if Ascii.eqb c "1" then None else rank_value c.

Definition suit_value (c : ascii) : option Z :=
  if Ascii.eqb c "C" then Some 0
  else if Ascii.eqb c "S" then Some 1
  else if Ascii.eqb c "D" then Some 2
  else if Ascii.eqb c "H" then Some 3
  else None.

(** A token is a rank character followed by a suit character. *)
Definition card_of_token (rank_of : ascii -> option Z) (x : string) : option card :=
  match x with
  | String r (String s EmptyString) =>
      match rank_of r, suit_value s with
      | Some a, Some b => Some (a, b)
      | _, _ => None
      end
  | _ => None
  end.

Definition token_card : string -> option card := card_of_token rank_value.

Definition claimed_token_card : string -> option card :=
  card_of_token claimed_rank_value.

(** The claim on parsing: failure exactly when a token is outside the
    claimed mappings. *)
Definition scrub_fails_iff_claimed (hand : list string) : Prop :=
  (exists e, scrub_hand hand = Err e) <->
  (exists x, In x hand /\ claimed_token_card x = None).

(** ** Selecting the winner *)

Definition lex_lt (a b : Z * Z) : Prop := tuple_ltb a b = true.
Definition lex_le (a b : Z * Z) : Prop := tuple_ltb b a = false.

Section FirstMaximum.
Context {A : Type} (key : A -> result (option rankval)).

(** The key of [x] is the tuple [k]. *)
Definition keyed (x : A) (k : Z * Z) : Prop :=
  key x = Ok (Some (RTuple (fst k) (snd k))).

(** [w] is the first item of [items] whose key is maximal. *)
Definition first_maximum (items : list A) (w : A) : Prop :=
  exists pre post k,
    items = pre ++ w :: post /\ keyed w k /\
    Forall (fun x => exists k', keyed x k' /\ lex_lt k' k) pre /\
    Forall (fun x => exists k', keyed x k' /\ lex_le k' k) post.
End FirstMaximum.

(** poker returns one hand, the first of those with the greatest rank. *)
Definition poker_selects_first_maximum (hands : list (list string)) : Prop :=
  exists w, poker hands = Ok w /\ first_maximum hand_rank hands w.

(** ** Ace duplication *)

(** One card of rank 0 for each ace of [h], with the ace's suit. *)
Definition low_copies (h : list card) : list card :=
  map (fun c => (0, snd c)) (filter (fun c => fst c =? 14) h).

(** Where the binary search for [x] in [a] stops: everything before
    position [r] is at most [x], everything from there on is greater. *)
Definition splits_at (a : list card) (x : card) (r : nat) : Prop :=
  (r <= length a)%nat /\
  (forall i, (i < r)%nat -> tuple_ltb x (nth i a (0, 0)) = false) /\
  (forall i, (r <= i)%nat -> (i < length a)%nat ->
             tuple_ltb x (nth i a (0, 0)) = true).

(** A suit as the dict [suits] numbers it. *)
Definition suit_ok (c : card) : Prop := 0 <= snd c <= 3.

(** A rank of the ace-duplicated hand: the low ace or a rank from 2 up. *)
Definition rank_low_or_plain (c : card) : Prop := fst c = 0 \/ 2 <= fst c.

(** The last rank of a straight's window is the rank of a card seen. *)
Definition straight_inv (streak : option (Z * Z)) : Prop :=
  match streak with
  | Some (_, last) => last = 0 \/ 2 <= last
  | None => True
  end.

(** A detector's answer that is [None] or a tuple, never a bare integer. *)
Definition tuple_or_none (v : option rankval) : Prop :=
  match v with
  | Some (RInt _) => False
  | _ => True
  end.

(** ** Loop invariants *)

(** two_pair: what the two streak slots can hold while the cards still to
    come, [cards], are scanned in descending order. *)
Definition two_pair_inv (cards : list card) (s0 s1 : option (Z * Z)) : Prop :=
  match s0, s1 with
  | None, None => True
  | None, Some _ => False
  | Some (r0, _), None => Forall (fun y => fst y <= r0) cards
  | Some (r0, _), Some (r1, _) => r1 < r0 /\ Forall (fun y => fst y <= r1) cards
  end.

(** full_house: [pre] are the cards already scanned, [rest] the ones still
    to come; each slot counts the cards of its rank seen so far. *)
Definition full_house_inv (pre rest : list card) (s0 s1 : option (Z * Z)) : Prop :=
  match s0, s1 with
  | None, None => pre = []
  | None, Some _ => False
  | Some (r0, c0), None =>
      c0 = count_rank r0 pre /\
      Forall (fun y => r0 <= fst y) pre /\
      Forall (fun y => fst y <= r0) rest
  | Some (r0, c0), Some (r1, c1) =>
      r1 < r0 /\
      c0 = count_rank r0 pre /\
      c1 = count_rank r1 pre /\
      Forall (fun y => r1 <= fst y) pre /\
      Forall (fun y => fst y <= r1) rest
  end.

(** What a full-house answer [v] says about the hand [l]: the tiebreak is
    the higher of two ranks, one held three times and the other twice. *)
Definition full_house_post (l : list card) (v : rankval) : Prop :=
  exists t r2,
    v = RTuple FULL_H t /\ r2 < t /\
    ((count_rank t l = 3 /\ 2 <= count_rank r2 l) \/
     (count_rank t l = 2 /\ 3 <= count_rank r2 l)).

(** The reading of the full-house tiebreak as "the rank held three times". *)
Definition tiebreak_is_triple (h : list card) : Prop :=
  forall c t, full_house h = Some (RTuple c t) -> count_rank t h = 3.

(** of_kind: [pre] are the cards already scanned, [rest] the ones still to
    come; no rank has reached [num] cards yet and the streak counts the
    cards of the rank last seen. *)
Definition of_kind_inv (num : Z) (pre rest : list card) (streak : option (Z * Z))
  : Prop :=
  (forall r, count_rank r pre < num) /\
  match streak with
  | None => pre = []
  | Some (r, c) =>
      c = count_rank r pre /\
      Forall (fun y => r <= fst y) pre /\
      Forall (fun y => fst y <= r) rest
  end.

(** What of_kind finds in the hand [l]: nothing, no rank being held [num]
    times, or the highest rank [r] held at least [num] times, whose
    category is then looked up in kind_to_rank. *)
Definition of_kind_post (num : Z) (l : list card) (res : result (option rankval))
  : Prop :=
  (res = Ok None /\ forall r, count_rank r l < num) \/
  (exists r,
      res = (cat <- int_dict_get kind_to_rank num ;; Ok (Some (RTuple cat r))) /\
      num <= count_rank r l /\
      forall r', r < r' -> count_rank r' l < num).

(** Some card of [l] has rank [r]. *)
Definition holds_rank (l : list card) (r : Z) : Prop := In r (map fst l).

(** The five ranks from [t - 4] to [t] are all held in [l]. *)
Definition run_of_five (l : list card) (t : Z) : Prop :=
  forall r, t - 4 <= r <= t -> holds_rank l r.

(** straight: [pre] are the cards already scanned, [rest] the ones still to
    come; [pre] holds no run of five, and the window goes from the rank
    last seen up to the top of the run of consecutive ranks it ends. *)
Definition straight_scan_inv (pre rest : list card) (streak : option (Z * Z))
  : Prop :=
  (forall t, ~ run_of_five pre t) /\
  match streak with
  | None => pre = []
  | Some (first, last) =>
      last <= first <= last + 3 /\
      (forall r, last <= r <= first -> holds_rank pre r) /\
      ~ holds_rank pre (first + 1) /\
      Forall (fun y => last <= fst y) pre /\
      Forall (fun y => fst y <= last) rest
  end.

(** What straight finds in the hand [l]: nothing, no five consecutive ranks
    being held, or the top of the highest run of five. *)
Definition straight_post (l : list card) (res : option rankval) : Prop :=
  (res = None /\ forall t, ~ run_of_five l t) \/
  (exists t,
      res = Some (RTuple STRAIGHT t) /\ run_of_five l t /\
      forall t', run_of_five l t' -> t' <= t).

(** Number of cards of suit [s]. *)
Definition count_suit (s : Z) (l : list card) : Z :=
  Z.of_nat (length (filter (fun c => snd c =? s) l)).

(** flush: the slot of suit [s] after the cards [pre], with [rest] still to
    come: it counts the cards of the suit and remembers the first one seen,
    which no later card outranks. *)
Definition flush_slot_inv (s : Z) (slot : option (Z * Z)) (pre rest : list card)
  : Prop :=
  match slot with
  | None => count_suit s pre = 0
  | Some (highest, count) =>
      count = count_suit s pre /\
      1 <= count < 5 /\
      In (highest, s) pre /\
      (forall r, In (r, s) pre -> r <= highest) /\
      Forall (fun y => fst y <= highest) rest
  end.

(** What flush finds in the hand [l]: nothing, no suit (of the four slots)
    holding five cards, or a suit holding five together with the highest
    rank of that suit. *)
Definition flush_post (l : list card) (res : result (option rankval)) : Prop :=
  (res = Ok None /\ forall s, 0 <= s <= 3 -> count_suit s l < 5) \/
  (exists s t,
      res = Ok (Some (RTuple FLUSH t)) /\
      5 <= count_suit s l /\ In (t, s) l /\
      forall r, In (r, s) l -> r <= t).

(** The cards of suit [s]. *)
Definition suit_cards (s : Z) (l : list card) : list card :=
  filter (fun c => snd c =? s) l.

(** One card of rank [i] seen by a window [[first, last]]: the new window,
    or the top of the run when the card completes five ranks.  This is the
    step that straight and each slot of straight_flush have in common. *)
Definition window_step (streak : option (Z * Z)) (i : Z) : option (Z * Z) + Z :=
  match streak with
  | None => inl (Some (i, i))
  | Some (first, last) =>
      if i + 1 <? last then inl (Some (i, i))
      else if last =? i + 1 then
        if first - i =? 4 then inr first else inl (Some (first, i))
      else inl streak
  end.

(** What straight_flush_loop started with the slots [a], [b], [c], [d]
    does on [cards], told through straight_loop run on each suit apart. *)
Definition suitwise (cards : list card) (a b c d : option (Z * Z))
  (res : result (option rankval)) : Prop :=
  match res with
  | Ok None =>
      straight_loop (suit_cards 0 cards) a = None /\
      straight_loop (suit_cards 1 cards) b = None /\
      straight_loop (suit_cards 2 cards) c = None /\
      straight_loop (suit_cards 3 cards) d = None
  | Ok (Some v) =>
      exists t,
        v = RTuple STRAIGHT_FL t /\
        (straight_loop (suit_cards 0 cards) a = Some (RTuple STRAIGHT t) \/
         straight_loop (suit_cards 1 cards) b = Some (RTuple STRAIGHT t) \/
         straight_loop (suit_cards 2 cards) c = Some (RTuple STRAIGHT t) \/
         straight_loop (suit_cards 3 cards) d = Some (RTuple STRAIGHT t))
  | Err _ => False
  end.

(** The top [t] of the highest run of five consecutive ranks in suit [s]. *)
Definition highest_suited_run (h : list card) (s t : Z) : Prop :=
  run_of_five (suit_cards s h) t /\
  forall t', run_of_five (suit_cards s h) t' -> t' <= t.

(** What in the parsed hand [h] justifies the answer [(c, t)] of
    hand_rank, category by category. *)
Definition category_justified (h : list card) (c t : Z) : Prop :=
  (c = STRAIGHT_FL /\ exists s, run_of_five (suit_cards s (low_aces h)) t) \/
  (c = FOUR_OK /\ 4 <= count_rank t h) \/
  (c = FULL_H /\
   exists r2, r2 < t /\
              ((count_rank t h = 3 /\ 2 <= count_rank r2 h) \/
               (count_rank t h = 2 /\ 3 <= count_rank r2 h))) \/
  (c = FLUSH /\ exists s, 5 <= count_suit s h /\ In (t, s) h) \/
  (c = STRAIGHT /\ run_of_five (low_aces h) t) \/
  (c = THREE_OK /\ 3 <= count_rank t h) \/
  (c = TWO_PAIR /\ count_rank t h = 2 /\
   exists r2, r2 < t /\ 2 <= count_rank r2 h) \/
  (c = ONE_PAIR /\ 2 <= count_rank t h) \/
  (c = HIGH_CARD /\ holds_rank h t /\ Forall (fun y => t <= fst y) h).

(** [a] and [b] are ranks held in [l], [b] the next one below [a]. *)
Definition adjacent_ranks (l : list card) (a b : Z) : Prop :=
  b < a /\ holds_rank l a /\ holds_rank l b /\
  forall r, b < r < a -> ~ holds_rank l r.

(** What full_house can see: two neighbouring ranks, the higher held
    exactly twice or three times and the lower completing the five cards. *)
Definition full_pair (l : list card) (a b : Z) : Prop :=
  adjacent_ranks l a b /\
  ((count_rank a l = 2 /\ 3 <= count_rank b l) \/
   (count_rank a l = 3 /\ 2 <= count_rank b l)).

(** full_house, with what has not been found so far: [pre] are the cards
    already scanned, [rest] the ones still to come. *)
Definition full_house_scan_inv (pre rest : list card) (s0 s1 : option (Z * Z))
  : Prop :=
  match s0, s1 with
  | None, None => pre = []
  | None, Some _ => False
  | Some (r0, c0), None =>
      c0 = count_rank r0 pre /\
      holds_rank pre r0 /\
      Forall (fun y => fst y = r0) pre /\
      Forall (fun y => fst y <= r0) rest
  | Some (r0, c0), Some (r1, c1) =>
      r1 < r0 /\
      c0 = count_rank r0 pre /\
      c1 = count_rank r1 pre /\
      holds_rank pre r0 /\ holds_rank pre r1 /\
      (forall r, r1 < r < r0 -> ~ holds_rank pre r) /\
      Forall (fun y => r1 <= fst y) pre /\
      Forall (fun y => fst y <= r1) rest /\
      ~ ((c0 = 2 /\ 3 <= c1) \/ (c0 = 3 /\ 2 <= c1)) /\
      (forall a b, r1 < b -> ~ full_pair pre a b)
  end.

(** What full_house finds in the hand [l]: nothing, the hand having no two
    neighbouring ranks that make a full house, or the highest such pair of
    ranks. *)
Definition full_house_scan_post (l : list card) (res : option rankval) : Prop :=
  (res = None /\ forall a b, ~ full_pair l a b) \/
  (exists a b,
      res = Some (RTuple FULL_H a) /\ full_pair l a b /\
      forall a' b', full_pair l a' b' -> a' <= a).

(** Two answers of hand_rank that Python can compare: both tuples or both
    integers. *)
Definition same_kind (a b : option rankval) : bool :=
  match a, b with
  | Some (RInt _), Some (RInt _) => true
  | Some (RTuple _ _), Some (RTuple _ _) => true
  | _, _ => false
  end.

(** * Properties *)

(** ** Sorted lists of cards *)
Section Orders.

Lemma StronglySorted_snoc {A : Type} (R : A -> A -> Prop) (l : list A) (x : A) :
  StronglySorted R l -> Forall (fun y => R y x) l -> StronglySorted R (l ++ [x]).
Proof.
  induction 1 as [| y l Hl IH Hy]; intros Hx; simpl.
  - repeat constructor.
  - inversion Hx; subst. constructor.
    + apply IH; assumption.
    + apply Forall_app. split; [assumption | repeat constructor; assumption].
Qed.

Lemma StronglySorted_rev {A : Type} (R : A -> A -> Prop) (l : list A) :
  StronglySorted R l -> StronglySorted (fun a b => R b a) (rev l).
Proof.
  induction 1 as [| y l Hl IH Hy]; simpl.
  - constructor.
  - apply StronglySorted_snoc; [exact IH |].
    apply Forall_rev. exact Hy.
Qed.

Lemma rank_sorted_desc (h : list card) : rank_sorted h -> rank_desc (rev h).
Proof. apply StronglySorted_rev. Qed.

Lemma tuple_leb_rank (a b : card) : tuple_leb a b = true -> fst a <= fst b.
Proof.
  unfold tuple_leb, tuple_ltb. destruct a as [ra sa], b as [rb sb]; simpl.
  intros H. apply negb_true_iff in H. apply orb_false_iff in H.
  destruct H as [H _]. lia.
Qed.

Lemma tuple_sorted_rank_sorted (h : list card) : tuple_sorted h -> rank_sorted h.
Proof.
  induction 1 as [| x l Hl IH Hx]; constructor.
  - exact IH.
  - eapply Forall_impl; [| exact Hx]. intros b. apply tuple_leb_rank.
Qed.

Lemma rank_desc_inv (c : card) (l : list card) :
  rank_desc (c :: l) -> rank_desc l /\ Forall (fun y => fst y <= fst c) l.
Proof. intros H. inversion H; subst. split; assumption. Qed.

End Orders.

(** ** two_pair on sorted hands *)
Section TwoPair.

Lemma two_pair_loop_category (cards : list card) :
  forall s0 s1,
    rank_desc cards -> two_pair_inv cards s0 s1 ->
    two_pair_loop cards s0 s1 = None \/
    exists r, two_pair_loop cards s0 s1 = Some (RTuple TWO_PAIR r).
Proof.
  induction cards as [| [i j] rest IH]; intros s0 s1 Hd Hinv; simpl.
  - left; reflexivity.
  - apply rank_desc_inv in Hd. destruct Hd as [Hd Hle]. simpl in Hle.
    destruct s0 as [[r0 c0] |].
    + destruct (Z.eqb_spec r0 i) as [-> | Hne].
      * destruct s1 as [[r1 c1] |].
        -- (* the first streak matches again although a second one exists *)
           simpl in Hinv. destruct Hinv as [Hlt Hall].
           inversion Hall; subst. simpl in *. lia.
        -- apply IH; [exact Hd | simpl; exact Hle].
      * destruct s1 as [[r1 c1] |].
        -- simpl in Hinv. destruct Hinv as [Hlt Hall].
           inversion Hall as [| ? ? Hi Hrest]; subst. simpl in Hi.
           destruct (Z.eqb_spec r1 i) as [-> | Hne1]; simpl.
           ++ destruct ((c0 =? 2) && (c1 + 1 =? 2)).
              ** right. eexists; reflexivity.
              ** apply IH; [exact Hd | simpl; split; assumption].
           ++ apply IH; [exact Hd |]. simpl. split; [lia | exact Hle].
        -- simpl in Hinv. inversion Hinv as [| ? ? Hi Hrest]; subst. simpl in Hi.
           apply IH; [exact Hd |]. simpl. split; [lia | exact Hle].
    + destruct s1; [contradiction |].
      apply IH; [exact Hd | simpl; exact Hle].
Qed.

End TwoPair.

(** C10: on a hand sorted ascending by rank, two_pair returns None or a
    tuple of category TWO_PAIR; the branch that would answer FULL_H is never
    taken. *)
Theorem two_pair_sorted_category (h : list card) :
  rank_sorted h ->
  (two_pair h = None \/ exists r, two_pair h = Some (RTuple TWO_PAIR r)) /\
  (forall r, two_pair h <> Some (RTuple FULL_H r)).
Proof.
  intros Hs.
  assert (H : two_pair h = None \/ exists r, two_pair h = Some (RTuple TWO_PAIR r)).
  { unfold two_pair. apply two_pair_loop_category.
    - apply rank_sorted_desc; exact Hs.
    - exact I. }
  split; [exact H |].
  intros r Hr. destruct H as [H | [r' H]]; rewrite H in Hr; discriminate.
Qed.

Lemma two_pair_sorted_category_witness :
  rank_sorted [(5, 1); (5, 2); (6, 1); (9, 0); (9, 3)] /\
  (two_pair [(5, 1); (5, 2); (6, 1); (9, 0); (9, 3)] = None \/
   exists r, two_pair [(5, 1); (5, 2); (6, 1); (9, 0); (9, 3)] = Some (RTuple TWO_PAIR r)) /\
  (forall r, two_pair [(5, 1); (5, 2); (6, 1); (9, 0); (9, 3)] <> Some (RTuple FULL_H r)).
Proof.
  assert (Hs : rank_sorted [(5, 1); (5, 2); (6, 1); (9, 0); (9, 3)]).
  { unfold rank_sorted. repeat constructor; simpl; lia. }
  split; [exact Hs | apply two_pair_sorted_category; exact Hs].
Defined.

(** ** full_house on sorted hands *)
Section FullHouse.

Lemma count_rank_nil (r : Z) : count_rank r [] = 0.
Proof. reflexivity. Qed.

Lemma count_rank_app (r : Z) (l1 l2 : list card) :
  count_rank r (l1 ++ l2) = count_rank r l1 + count_rank r l2.
Proof.
  unfold count_rank. rewrite filter_app, length_app, Nat2Z.inj_add. reflexivity.
Qed.

Lemma count_rank_one_eq (r s : Z) : count_rank r [(r, s)] = 1.
Proof. unfold count_rank. simpl. rewrite Z.eqb_refl. reflexivity. Qed.

Lemma count_rank_one_ne (r i s : Z) : i <> r -> count_rank r [(i, s)] = 0.
Proof.
  intros H. unfold count_rank. simpl.
  destruct (Z.eqb_spec i r); [contradiction | reflexivity].
Qed.

Lemma count_rank_nonneg (r : Z) (l : list card) : 0 <= count_rank r l.
Proof. unfold count_rank. lia. Qed.

Lemma count_rank_below (r b : Z) (l : list card) :
  b < r -> Forall (fun y => fst y <= b) l -> count_rank r l = 0.
Proof.
  intros Hlt. induction 1 as [| [i s] l Hi Hl IH]; [reflexivity |].
  change ((i, s) :: l) with ([(i, s)] ++ l).
  rewrite count_rank_app, IH, count_rank_one_ne; simpl in Hi; lia.
Qed.

Lemma count_rank_above (r b : Z) (l : list card) :
  r < b -> Forall (fun y => b <= fst y) l -> count_rank r l = 0.
Proof.
  intros Hlt. induction 1 as [| [i s] l Hi Hl IH]; [reflexivity |].
  change ((i, s) :: l) with ([(i, s)] ++ l).
  rewrite count_rank_app, IH, count_rank_one_ne; simpl in Hi; lia.
Qed.

Lemma count_rank_rev (r : Z) (l : list card) :
  count_rank r (rev l) = count_rank r l.
Proof.
  induction l as [| c l IH]; [reflexivity |].
  simpl rev. change (c :: l) with ([c] ++ l).
  rewrite !count_rank_app, IH. lia.
Qed.

Lemma Forall_weaken_ge (a b : Z) (l : list card) :
  a <= b -> Forall (fun y => b <= fst y) l -> Forall (fun y => a <= fst y) l.
Proof.
  intros Hab H. eapply Forall_impl; [| exact H]. simpl. intros; lia.
Qed.

Lemma full_counts_cases (c0 c1 : Z) :
  full_counts c0 c1 = true -> (c0 = 2 /\ c1 = 3) \/ (c0 = 3 /\ c1 = 2).
Proof. unfold full_counts. lia. Qed.

Lemma count_rank_cons (r : Z) (c : card) (l : list card) :
  count_rank r (c :: l) = count_rank r [c] + count_rank r l.
Proof. apply (count_rank_app r [c] l). Qed.

(** Pass to the next turn of the loop: the card just read joins the cards
    already scanned, and the invariant is what remains to be shown. *)
Ltac fh_next IH Hd Hl c :=
  let Hv := fresh "Hv" in
  intros Hv;
  eapply (IH (_ ++ [c]));
  [ exact Hd | rewrite <- app_assoc; exact Hl | | exact Hv ].

Lemma full_house_loop_post (rest : list card) :
  forall pre s0 s1 v l,
    rank_desc rest -> l = pre ++ rest -> full_house_inv pre rest s0 s1 ->
    full_house_loop rest s0 s1 = Some v ->
    full_house_post l v.
Proof.
  induction rest as [| [i j] rest IH]; intros pre s0 s1 v l Hd Hl Hinv; simpl.
  - discriminate.
  - apply rank_desc_inv in Hd. destruct Hd as [Hd Hle]. simpl in Hle.
    destruct s0 as [[r0 c0] |].
    + destruct (Z.eqb_spec r0 i) as [-> | Hne].
      * destruct s1 as [[r1 c1] |]; simpl in Hinv.
        -- destruct Hinv as (Hlt & _ & _ & _ & Hall).
           inversion Hall; subst. simpl in *. lia.
        -- destruct Hinv as (Hc0 & Hpre & Hrest).
           fh_next IH Hd Hl (i, j). simpl. repeat split.
           ++ rewrite count_rank_app, count_rank_one_eq. lia.
           ++ apply Forall_app. split; [exact Hpre |].
              repeat constructor. simpl. lia.
           ++ exact Hle.
      * destruct s1 as [[r1 c1] |]; simpl in Hinv.
        -- destruct Hinv as (Hlt & Hc0 & Hc1 & Hpre & Hall).
           inversion Hall as [| ? ? Hi Hrest]; subst c0 c1. simpl in Hi.
           destruct (Z.eqb_spec r1 i) as [-> | Hne1]; simpl.
           ++ destruct (full_counts (count_rank r0 pre) (count_rank i pre + 1)) eqn:Hfc.
              ** intros Hv. injection Hv as <-.
                 exists r0, i. split; [reflexivity |]. split; [exact Hlt |].
                 assert (Hhi : count_rank r0 l = count_rank r0 pre).
                 { rewrite Hl, count_rank_app, count_rank_cons.
                   rewrite count_rank_one_ne by lia.
                   rewrite (count_rank_below r0 i rest) by assumption. lia. }
                 assert (Hlo : count_rank i pre + 1 <= count_rank i l).
                 { rewrite Hl, count_rank_app, count_rank_cons, count_rank_one_eq.
                   pose proof (count_rank_nonneg i rest). lia. }
                 rewrite Hhi. apply full_counts_cases in Hfc. lia.
              ** fh_next IH Hd Hl (i, j). simpl. repeat split.
                 --- exact Hlt.
                 --- rewrite count_rank_app, count_rank_one_ne by lia. lia.
                 --- rewrite count_rank_app, count_rank_one_eq. lia.
                 --- apply Forall_app. split; [exact Hpre |].
                     repeat constructor. simpl. lia.
                 --- exact Hle.
           ++ fh_next IH Hd Hl (i, j). simpl. repeat split.
              ** lia.
              ** rewrite count_rank_app, count_rank_one_ne by lia. lia.
              ** rewrite count_rank_app, count_rank_one_eq.
                 rewrite (count_rank_above i r1 pre) by (assumption || lia). lia.
              ** apply Forall_app. split.
                 --- apply Forall_weaken_ge with (b := r1); [lia | exact Hpre].
                 --- repeat constructor. simpl. lia.
              ** exact Hle.
        -- destruct Hinv as (Hc0 & Hpre & Hall).
           inversion Hall as [| ? ? Hi Hrest]; subst c0. simpl in Hi.
           fh_next IH Hd Hl (i, j). simpl. repeat split.
           ++ lia.
           ++ rewrite count_rank_app, count_rank_one_ne by lia. lia.
           ++ rewrite count_rank_app, count_rank_one_eq.
              rewrite (count_rank_above i r0 pre) by (assumption || lia). lia.
           ++ apply Forall_app. split.
              ** apply Forall_weaken_ge with (b := r0); [lia | exact Hpre].
              ** repeat constructor. simpl. lia.
           ++ exact Hle.
    + destruct s1; simpl in Hinv; [contradiction |]. subst pre.
      fh_next IH Hd Hl (i, j). simpl. repeat split.
      * rewrite count_rank_one_eq. reflexivity.
      * repeat constructor. simpl. lia.
      * exact Hle.
Qed.

End FullHouse.

(** C3, as the program has it: when full_house answers on a hand sorted
    ascending by rank, the category is FULL_H and the tiebreak is the higher
    of the two ranks involved, which is the rank held three times only when
    the triple outranks the pair; otherwise it is the rank of the pair. *)
Theorem full_house_tiebreak_higher_rank (h : list card) (v : rankval) :
  rank_sorted h -> full_house h = Some v ->
  exists t r2,
    v = RTuple FULL_H t /\ r2 < t /\
    ((count_rank t h = 3 /\ 2 <= count_rank r2 h) \/
     (count_rank t h = 2 /\ 3 <= count_rank r2 h)).
Proof.
  intros Hs Hv. unfold full_house in Hv.
  apply (full_house_loop_post (rev h) [] None None v (rev h)) in Hv.
  - destruct Hv as (t & r2 & Hv & Hlt & Hc).
    rewrite !count_rank_rev in Hc. exists t, r2. auto.
  - apply rank_sorted_desc; exact Hs.
  - reflexivity.
  - reflexivity.
Qed.

Lemma full_house_tiebreak_higher_rank_witness :
  exists t r2,
    RTuple FULL_H 10 = RTuple FULL_H t /\ r2 < t /\
    ((count_rank t [(2, 1); (2, 2); (2, 3); (10, 1); (10, 3)] = 3 /\
      2 <= count_rank r2 [(2, 1); (2, 2); (2, 3); (10, 1); (10, 3)]) \/
     (count_rank t [(2, 1); (2, 2); (2, 3); (10, 1); (10, 3)] = 2 /\
      3 <= count_rank r2 [(2, 1); (2, 2); (2, 3); (10, 1); (10, 3)])).
Proof.
  apply (full_house_tiebreak_higher_rank
           [(2, 1); (2, 2); (2, 3); (10, 1); (10, 3)] (RTuple FULL_H 10)).
  - unfold rank_sorted. repeat constructor; simpl; lia.
  - reflexivity.
Defined.

(** C3, as stated, fails: for the tens-over-twos hand of the program's own
    test the answer carries 10, the rank of the pair, while the rank held
    three times is 2. *)
Lemma full_house_tiebreak_not_triple :
  ~ tiebreak_is_triple [(2, 1); (2, 2); (2, 3); (10, 1); (10, 3)].
Proof.
  intros H. specialize (H FULL_H 10 eq_refl). vm_compute in H. discriminate.
Qed.

(** ** The order of the detectors *)

(** C8: hand_rank tries the detectors in the order straight flush / royal,
    four of a kind, full house, flush, straight, three of a kind, two pair,
    one pair, high card, and answers with the first result that is not
    None (the two straight detectors see the ace-duplicated hand). *)
Theorem hand_rank_detector_order (hand : list string) :
  hand_rank hand =
  (h <- scrub_hand hand ;;
   first_non_none
     [ straight_flush (low_aces h);
       of_kind h 4;
       Ok (full_house h);
       flush h;
       Ok (straight (low_aces h));
       of_kind h 3;
       Ok (two_pair h);
       of_kind h 2;
       Ok (high_card h) ]).
Proof.
  unfold hand_rank. destruct (scrub_hand hand) as [h | e]; [| reflexivity].
  simpl.
  destruct (straight_flush (low_aces h)) as [[v |] | e]; try reflexivity. simpl.
  destruct (of_kind h 4) as [[v |] | e]; try reflexivity. simpl.
  destruct (full_house h) as [v |]; try reflexivity. simpl.
  destruct (flush h) as [[v |] | e]; try reflexivity. simpl.
  destruct (straight (low_aces h)) as [v |]; try reflexivity. simpl.
  destruct (of_kind h 3) as [[v |] | e]; try reflexivity. simpl.
  destruct (two_pair h) as [v |]; try reflexivity. simpl.
  destruct (of_kind h 2) as [[v |] | e]; try reflexivity. simpl.
  destruct (high_card h) as [v |]; reflexivity.
Qed.

(** ** The program at the inputs of its own tests *)

(** The assertion that test_hand_rank runs when the module is loaded. *)
Example test_hand_rank_t4 :
  hand_rank Hands.t4 = Ok (Some (RTuple FULL_H 10)).
Proof. vm_compute. reflexivity. Qed.

Example hand_rank_fh : hand_rank Hands.fh = Ok (Some (RTuple FULL_H 10)).
Proof. vm_compute. reflexivity. Qed.

Example poker_sf_fk_fh : poker [Hands.sf; Hands.fk; Hands.fh] = Ok Hands.sf.
Proof. vm_compute. reflexivity. Qed.

Example poker_fk_fh : poker [Hands.fk; Hands.fh] = Ok Hands.fk.
Proof. vm_compute. reflexivity. Qed.

Example poker_s1_s2 : poker [Hands.s1; Hands.s2] = Ok Hands.s2.
Proof. vm_compute. reflexivity. Qed.

Example hand_rank_tp : hand_rank Hands.tp = Ok (Some (RTuple TWO_PAIR 9)).
Proof. vm_compute. reflexivity. Qed.

(** C1 (the program departs from it): the wheel A-2-3-4-5 of the test
    suite is given the low ace at rank 0, below the 2 by two, so the
    straight detector finds no run and the hand is ranked as a high card;
    against the two-pair hand of the same tests it loses, where the tests
    expect it to win. *)
Theorem wheel_ranked_as_high_card :
  scrub_hand Hands.s1 = Ok [(2, 1); (3, 1); (4, 1); (5, 0); (14, 1)] /\
  low_aces [(2, 1); (3, 1); (4, 1); (5, 0); (14, 1)]
    = [(0, 1); (2, 1); (3, 1); (4, 1); (5, 0); (14, 1)] /\
  straight [(0, 1); (2, 1); (3, 1); (4, 1); (5, 0); (14, 1)] = None /\
  hand_rank Hands.s1 = Ok (Some (RTuple HIGH_CARD 2)) /\
  poker [Hands.s1; Hands.tp] = Ok Hands.tp.
Proof. repeat split; vm_compute; reflexivity. Qed.

(** C2 (the program departs from it): for a royal flush hand_rank answers
    the bare integer ROYAL_FL, not a tuple, and comparing it with the tuple
    of another hand raises TypeError. *)
Theorem royal_flush_ranked_as_bare_integer :
  hand_rank Hands.royal = Ok (Some (RInt ROYAL_FL)) /\
  poker [Hands.royal; Hands.fk] = Err TypeError.
Proof. split; vm_compute; reflexivity. Qed.

(** C4 (the program departs from it): high_card answers with the rank of
    the first card of the ascending hand, the lowest one; the seven-high
    hand of the test suite gets tiebreak 2. *)
Theorem high_card_takes_lowest_rank :
  scrub_hand Hands.sh = Ok [(2, 1); (3, 1); (4, 1); (6, 0); (7, 2)] /\
  high_card [(2, 1); (3, 1); (4, 1); (6, 0); (7, 2)] = Some (RTuple HIGH_CARD 2) /\
  hand_rank Hands.sh = Ok (Some (RTuple HIGH_CARD 2)).
Proof. repeat split; vm_compute; reflexivity. Qed.

(** C5 (the program departs from it): with a king above the pairs of nines
    and fives, the first streak slot stays on the king, two_pair answers
    None and the hand is ranked as one pair. *)
Theorem two_pair_missed_under_higher_card :
  scrub_hand Hands.kicker_above = Ok [(5, 1); (5, 2); (9, 0); (9, 3); (13, 1)] /\
  two_pair [(5, 1); (5, 2); (9, 0); (9, 3); (13, 1)] = None /\
  hand_rank Hands.kicker_above = Ok (Some (RTuple ONE_PAIR 9)).
Proof. repeat split; vm_compute; reflexivity. Qed.

(** ** Parsing *)
Section Parsing.

Lemma card_ranks_one_char (c : ascii) :
  dict_get card_ranks (String c EmptyString) =
  match rank_value c with
  | Some v => Ok v
  | None => Err KeyError
  end.
Proof.
  destruct c as [b0 b1 b2 b3 b4 b5 b6 b7].
  destruct b0, b1, b2, b3, b4, b5, b6, b7; reflexivity.
Qed.

Lemma suits_one_char (c : ascii) :
  dict_get suits (String c EmptyString) =
  match suit_value c with
  | Some v => Ok v
  | None => Err KeyError
  end.
Proof.
  destruct c as [b0 b1 b2 b3 b4 b5 b6 b7].
  destruct b0, b1, b2, b3, b4, b5, b6, b7; reflexivity.
Qed.

Lemma card_ranks_empty : dict_get card_ranks EmptyString = Err KeyError.
Proof. reflexivity. Qed.

Lemma eqb_one_char_long (k a b : ascii) (s : string) :
  String.eqb (String k EmptyString) (String a (String b s)) = false.
Proof. cbn [String.eqb]. destruct (Ascii.eqb k a); reflexivity. Qed.

(** Every key of card_ranks is one character long. *)
Lemma card_ranks_long (a b : ascii) (s : string) :
  dict_get card_ranks (String a (String b s)) = Err KeyError.
Proof.
  unfold card_ranks. cbn [dict_get]. rewrite !eqb_one_char_long. reflexivity.
Qed.

Lemma scrub_token_card (x : string) :
  scrub_token x =
  match token_card x with
  | Some c => Ok c
  | None => Err KeyError
  end.
Proof.
  unfold scrub_token, token_card, card_of_token.
  destruct x as [| r [| s [| u rest]]].
  - reflexivity.
  - reflexivity.
  - change (slice_0_m1 (String r (String s EmptyString))) with (String r EmptyString).
    rewrite card_ranks_one_char.
    destruct (rank_value r) as [a |]; [| reflexivity].
    cbn [bind index_m1 last_char]. rewrite suits_one_char.
    destruct (suit_value s); reflexivity.
  - assert (H : exists a b t,
               slice_0_m1 (String r (String s (String u rest))) = String a (String b t)).
    { exists r, s. simpl. destruct rest; eexists; reflexivity. }
    destruct H as (a & b & t & ->). rewrite card_ranks_long. reflexivity.
Qed.

Lemma scrub_tokens_fail (hand : list string) :
  scrub_tokens hand = Err KeyError <-> exists x, In x hand /\ token_card x = None.
Proof.
  induction hand as [| x rest IH]; simpl.
  - split; [discriminate | intros (x & [] & _)].
  - rewrite scrub_token_card. destruct (token_card x) as [c |] eqn:Hx; simpl.
    + destruct (scrub_tokens rest) as [cs | e]; simpl.
      * split; [discriminate |].
        intros (y & [<- | Hy] & Hnone); [congruence |].
        destruct IH as [_ IH]. discriminate IH. exists y; auto.
      * split.
        -- intros He. injection He as ->.
           destruct IH as [IH _]. destruct (IH eq_refl) as (y & Hy & Hnone).
           exists y; auto.
        -- intros (y & [<- | Hy] & Hnone); [congruence |].
           destruct IH as [_ IH]. rewrite IH; [reflexivity | exists y; auto].
    + split; [| reflexivity]. intros _. exists x; auto.
Qed.

Lemma scrub_tokens_ok (hand : list string) (cs : list card) :
  Forall2 (fun x c => token_card x = Some c) hand cs ->
  scrub_tokens hand = Ok cs.
Proof.
  induction 1 as [| x c hand cs Hx _ IH]; simpl.
  - reflexivity.
  - rewrite scrub_token_card, Hx. simpl. rewrite IH. reflexivity.
Qed.

End Parsing.

(** C6, as the program has it: scrub_hand raises (a KeyError) exactly when
    some token is not a rank character from "1" to "9", T, J, Q, K, A
    followed by a suit character from C, S, D, H; when every token is of
    that form, the result is the sorted list of the corresponding (rank,
    suit) cards.  The character "1" is a rank, of value 1. *)
Theorem scrub_hand_fails_iff_bad_token (hand : list string) :
  (scrub_hand hand = Err KeyError <->
   exists x, In x hand /\ token_card x = None) /\
  (forall cs, Forall2 (fun x c => token_card x = Some c) hand cs ->
              scrub_hand hand = Ok (sorted cs)) /\
  token_card "1S" = Some (1, 1).
Proof.
  split; [| split].
  - rewrite <- scrub_tokens_fail. unfold scrub_hand.
    destruct (scrub_tokens hand) as [cs | e]; simpl.
    + split; discriminate.
    + reflexivity.
  - intros cs H. unfold scrub_hand. rewrite (scrub_tokens_ok hand cs H). reflexivity.
  - reflexivity.
Qed.

(** C6, as stated, fails: the token "1S" has a rank character outside "2"
    to "9", T, J, Q, K, A, and yet it parses, to the card (1, 1). *)
Lemma scrub_hand_accepts_rank_one :
  ~ scrub_fails_iff_claimed ["1S"%string].
Proof.
  unfold scrub_fails_iff_claimed. intros [_ H].
  destruct H as [e He].
  - exists "1S"%string. split; [left; reflexivity | reflexivity].
  - vm_compute in He. discriminate.
Qed.

Lemma scrub_hand_fails_iff_bad_token_witness :
  scrub_hand ["AS"; "TD"]%string = Ok (sorted [(14, 1); (10, 2)]).
Proof.
  apply (proj1 (proj2 (scrub_hand_fails_iff_bad_token ["AS"; "TD"]%string))).
  repeat constructor.
Defined.

(** ** Selecting the winner *)
Section Selection.

Lemma tuple_ltb_true (a b : Z * Z) :
  tuple_ltb a b = true <-> fst a < fst b \/ (fst a = fst b /\ snd a < snd b).
Proof. unfold tuple_ltb. lia. Qed.

Lemma tuple_ltb_false (a b : Z * Z) :
  tuple_ltb a b = false <-> fst b < fst a \/ (fst a = fst b /\ snd b <= snd a).
Proof. unfold tuple_ltb. lia. Qed.

Lemma lex_lt_trans (a b c : Z * Z) : lex_lt a b -> lex_lt b c -> lex_lt a c.
Proof. unfold lex_lt. rewrite !tuple_ltb_true. lia. Qed.

Lemma lex_le_lt_trans (a b c : Z * Z) : lex_le a b -> lex_lt b c -> lex_lt a c.
Proof. unfold lex_lt, lex_le. rewrite tuple_ltb_false, !tuple_ltb_true. lia. Qed.

Lemma lex_le_refl (a : Z * Z) : lex_le a a.
Proof. unfold lex_le. rewrite tuple_ltb_false. lia. Qed.

Context {A : Type} (key : A -> result (option rankval)).

Lemma max_loop_first_maximum (items : list A) :
  forall (m : A) (km : Z * Z),
    Forall (fun x => exists k, keyed key x k) items ->
    exists w kw,
      max_loop key items m (Some (RTuple (fst km) (snd km))) = Ok w /\
      ((w = m /\ kw = km /\
        Forall (fun x => exists k', keyed key x k' /\ lex_le k' km) items) \/
       (exists pre post,
          items = pre ++ w :: post /\ keyed key w kw /\ lex_lt km kw /\
          Forall (fun x => exists k', keyed key x k' /\ lex_lt k' kw) pre /\
          Forall (fun x => exists k', keyed key x k' /\ lex_le k' kw) post)).
Proof.
  induction items as [| item rest IH]; intros m km Hk.
  - exists m, km. split; [reflexivity |]. left. auto.
  - inversion Hk as [| ? ? [k Hitem] Hrest]; subst.
    cbn [max_loop]. rewrite Hitem. cbn [bind py_gt].
    replace (fst km, snd km) with km by (destruct km; reflexivity).
    replace (fst k, snd k) with k by (destruct k; reflexivity).
    destruct (tuple_ltb km k) eqn:Hcmp.
    + destruct (IH item k Hrest) as (w & kw & Hrun & Hcase).
      exists w, kw. split; [exact Hrun |]. right.
      destruct Hcase as [(-> & -> & Hall) | (pre & post & -> & Hw & Hlt & Hpre & Hpost)].
      * exists [], rest. repeat split; auto.
      * exists (item :: pre), post. repeat split; auto.
        -- apply lex_lt_trans with (b := k); assumption.
        -- constructor; [| exact Hpre]. exists k. split; assumption.
    + destruct (IH m km Hrest) as (w & kw & Hrun & Hcase).
      exists w, kw. split; [exact Hrun |].
      destruct Hcase as [(-> & -> & Hall) | (pre & post & -> & Hw & Hlt & Hpre & Hpost)].
      * left. repeat split; auto. constructor; [| exact Hall].
        exists k. split; assumption.
      * right. exists (item :: pre), post. repeat split; auto.
        constructor; [| exact Hpre]. exists k. split; [assumption |].
        apply lex_le_lt_trans with (b := km); assumption.
Qed.

Lemma max_key_first_maximum (items : list A) :
  items <> [] ->
  Forall (fun x => exists k, keyed key x k) items ->
  exists w, max_key key items = Ok w /\ first_maximum key items w.
Proof.
  intros Hne Hk. destruct items as [| item rest]; [contradiction |].
  inversion Hk as [| ? ? [k Hitem] Hrest]; subst.
  cbn [max_key]. rewrite Hitem. cbn [bind].
  destruct (max_loop_first_maximum rest item k Hrest) as (w & kw & Hrun & Hcase).
  exists w. split; [exact Hrun |].
  destruct Hcase as [(-> & -> & Hall) | (pre & post & -> & Hw & Hlt & Hpre & Hpost)].
  - exists [], rest, k. repeat split; auto.
  - exists (item :: pre), post, kw. repeat split; auto.
    constructor; [| exact Hpre]. exists k. split; assumption.
Qed.

End Selection.

(** C7, as the program has it: for a sequence of hands that is not empty
    and whose hands all rank to a (category, tiebreak) tuple, poker returns
    one hand, the first in the sequence among those of greatest rank in the
    lexicographic order: every hand before it ranks strictly lower, every
    hand after it ranks lower or equal. *)
Theorem poker_first_maximum (hands : list (list string)) :
  hands <> [] ->
  Forall (fun h => exists k, keyed hand_rank h k) hands ->
  poker_selects_first_maximum hands.
Proof.
  intros Hne Hk. unfold poker_selects_first_maximum, poker.
  apply max_key_first_maximum; assumption.
Qed.

Lemma poker_first_maximum_witness :
  poker_selects_first_maximum [Hands.fk; Hands.sf; Hands.fh; Hands.sf].
Proof.
  apply poker_first_maximum.
  - discriminate.
  - repeat constructor.
    + exists (7, 9). reflexivity.
    + exists (8, 10). reflexivity.
    + exists (6, 10). reflexivity.
    + exists (8, 10). reflexivity.
Defined.

(** C7, as stated, fails: on the empty sequence poker returns no hand (max
    raises ValueError), and a royal flush next to another hand makes the
    comparison of ranks raise TypeError. *)
Lemma poker_no_winner :
  ~ poker_selects_first_maximum [] /\
  ~ poker_selects_first_maximum [Hands.royal; Hands.fk].
Proof.
  split; intros (w & Hw & _); vm_compute in Hw; discriminate.
Qed.

(** ** Binary search and sorted insertion *)
Section Bisect.

Lemma tuple_leb_refl (a : card) : tuple_leb a a = true.
Proof. unfold tuple_leb. apply negb_true_iff. apply tuple_ltb_false. lia. Qed.

(** [x < a] and [a <= b] give [x < b]. *)
Lemma tuple_ltb_leb_trans (x a b : card) :
  tuple_ltb x a = true -> tuple_leb a b = true -> tuple_ltb x b = true.
Proof.
  unfold tuple_leb. rewrite negb_true_iff, tuple_ltb_false, !tuple_ltb_true. lia.
Qed.

(** [a <= b] and not [x < b] give not [x < a]. *)
Lemma tuple_leb_not_ltb_trans (x a b : card) :
  tuple_leb a b = true -> tuple_ltb x b = false -> tuple_ltb x a = false.
Proof.
  unfold tuple_leb. rewrite negb_true_iff, !tuple_ltb_false. lia.
Qed.

Lemma tuple_sorted_nth (a : list card) :
  tuple_sorted a ->
  forall i j d, (i <= j)%nat -> (j < length a)%nat ->
                tuple_leb (nth i a d) (nth j a d) = true.
Proof.
  induction 1 as [| c l Hl IH Hc]; intros i j d Hij Hj; simpl in Hj.
  - lia.
  - destruct i as [| i], j as [| j]; simpl.
    + apply tuple_leb_refl.
    + rewrite Forall_nth in Hc. apply Hc. lia.
    + lia.
    + apply IH; lia.
Qed.

Lemma midpoint_between (lo hi : nat) :
  (lo < hi)%nat -> (lo <= (lo + hi) / 2 < hi)%nat.
Proof.
  intros H. split.
  - apply Nat.div_le_lower_bound; lia.
  - apply Nat.Div0.div_lt_upper_bound; lia.
Qed.

Lemma bisect_loop_splits (a : list card) (x : card) :
  tuple_sorted a ->
  forall fuel lo hi,
    (lo <= hi)%nat -> (hi <= length a)%nat -> (hi - lo <= fuel)%nat ->
    (forall i, (i < lo)%nat -> tuple_ltb x (nth i a (0, 0)) = false) ->
    (forall i, (hi <= i)%nat -> (i < length a)%nat ->
               tuple_ltb x (nth i a (0, 0)) = true) ->
    splits_at a x (bisect_loop fuel a x lo hi).
Proof.
  intros Hs. induction fuel as [| fuel IH]; intros lo hi Hlh Hhi Hfuel Hlow Hhigh.
  - assert (lo = hi) by lia. subst hi. simpl.
    split; [lia | split; assumption].
  - cbn [bisect_loop]. destruct (Nat.ltb_spec lo hi) as [Hlt | Hge].
    + pose proof (midpoint_between lo hi Hlt) as [Hm1 Hm2].
      set (mid := ((lo + hi) / 2)%nat) in *.
      destruct (tuple_ltb x (nth mid a (0, 0))) eqn:Hmid.
      * apply IH; try lia; [exact Hlow |].
        intros i Hi1 Hi2.
        apply tuple_ltb_leb_trans with (a := nth mid a (0, 0)); [exact Hmid |].
        apply tuple_sorted_nth; [exact Hs | lia | lia].
      * apply IH; try lia; [| exact Hhigh].
        intros i Hi.
        apply tuple_leb_not_ltb_trans with (b := nth mid a (0, 0)); [| exact Hmid].
        apply tuple_sorted_nth; [exact Hs | lia | lia].
    + assert (lo = hi) by lia. subst hi.
      split; [lia | split; assumption].
Qed.

Lemma bisect_right_splits (a : list card) (x : card) :
  tuple_sorted a -> splits_at a x (bisect_right a x).
Proof.
  intros Hs. unfold bisect_right.
  apply bisect_loop_splits.
  - exact Hs.
  - lia.
  - lia.
  - lia.
  - intros i Hi. lia.
  - intros i Hi1 Hi2. lia.
Qed.

Lemma StronglySorted_insert_middle {A : Type} (R : A -> A -> Prop) (x : A) :
  forall l1 l2,
    StronglySorted R (l1 ++ l2) ->
    Forall (fun y => R y x) l1 -> Forall (R x) l2 ->
    StronglySorted R (l1 ++ x :: l2).
Proof.
  induction l1 as [| c l1 IH]; intros l2 Hs H1 H2; simpl in *.
  - constructor; assumption.
  - inversion Hs as [| ? ? Hs' Hc]; subst. inversion H1; subst.
    constructor.
    + apply IH; assumption.
    + apply Forall_app in Hc. destruct Hc as [Hc1 Hc2].
      apply Forall_app. split; [exact Hc1 |]. constructor; assumption.
Qed.

Lemma insort_sorted (a : list card) (x : card) :
  tuple_sorted a -> tuple_sorted (insort a x).
Proof.
  intros Hs. destruct (bisect_right_splits a x Hs) as (Hr & Hlow & Hhigh).
  unfold insort. set (r := bisect_right a x) in *.
  apply StronglySorted_insert_middle.
  - rewrite firstn_skipn. exact Hs.
  - apply Forall_nth. intros i d Hi.
    rewrite length_firstn in Hi.
    rewrite nth_firstn. destruct (Nat.ltb_spec i r) as [Hir | Hir]; [| lia].
    unfold tuple_leb. rewrite (nth_indep a d (0, 0)) by lia.
    rewrite Hlow by exact Hir. reflexivity.
  - apply Forall_nth. intros i d Hi.
    rewrite length_skipn in Hi.
    rewrite nth_skipn. rewrite (nth_indep a d (0, 0)) by lia.
    unfold tuple_leb. apply negb_true_iff.
    assert (Hlt : tuple_ltb x (nth (r + i) a (0, 0)) = true) by (apply Hhigh; lia).
    apply tuple_ltb_true in Hlt. apply tuple_ltb_false. lia.
Qed.

Lemma insort_perm (a : list card) (x : card) : Permutation (insort a x) (x :: a).
Proof.
  unfold insort. symmetry.
  etransitivity; [| apply Permutation_middle].
  rewrite firstn_skipn. reflexivity.
Qed.

End Bisect.

(** ** Ace duplication *)
Section LowAces.

Lemma low_copies_cons_ace (s : Z) (l : list card) :
  low_copies ((14, s) :: l) = (0, s) :: low_copies l.
Proof. reflexivity. Qed.

Lemma low_copies_cons_other (i s : Z) (l : list card) :
  i <> 14 -> low_copies ((i, s) :: l) = low_copies l.
Proof.
  intros H. unfold low_copies. simpl.
  destruct (Z.eqb_spec i 14); [contradiction | reflexivity].
Qed.

Lemma low_copies_below (b : Z) (l : list card) :
  b < 14 -> Forall (fun y => fst y <= b) l -> low_copies l = [].
Proof.
  intros Hb. induction 1 as [| [i s] l Hi Hl IH]; [reflexivity |].
  simpl in Hi. rewrite low_copies_cons_other by lia. exact IH.
Qed.

Lemma low_copies_rev (l : list card) : low_copies (rev l) = rev (low_copies l).
Proof. unfold low_copies. rewrite filter_rev, map_rev. reflexivity. Qed.

Lemma low_aces_loop_sorted_perm (cards : list card) :
  forall acc,
    rank_desc cards -> tuple_sorted acc ->
    tuple_sorted (low_aces_loop cards acc) /\
    Permutation (low_aces_loop cards acc) (acc ++ low_copies cards).
Proof.
  induction cards as [| [i j] rest IH]; intros acc Hd Hacc.
  - simpl. rewrite app_nil_r. split; [exact Hacc | reflexivity].
  - apply rank_desc_inv in Hd. destruct Hd as [Hd Hle]. simpl in Hle.
    cbn [low_aces_loop]. unfold card_ranks_A.
    destruct (Z.ltb_spec i 14) as [Hlo | Hge].
    + rewrite low_copies_cons_other by lia.
      rewrite (low_copies_below i rest) by assumption.
      rewrite app_nil_r. split; [exact Hacc | reflexivity].
    + destruct (Z.ltb_spec 14 i) as [Hhi | Hle14].
      * rewrite low_copies_cons_other by lia. apply IH; assumption.
      * assert (i = 14) by lia. subst i. unfold LOW_ACE.
        destruct (IH (insort acc (0, j)) Hd (insort_sorted acc (0, j) Hacc))
          as [Hsorted Hperm].
        split; [exact Hsorted |].
        rewrite low_copies_cons_ace.
        etransitivity; [exact Hperm |].
        etransitivity; [apply Permutation_app_tail, insort_perm |].
        simpl. apply Permutation_middle.
Qed.

Lemma low_aces_sorted_perm (h : list card) :
  tuple_sorted h ->
  tuple_sorted (low_aces h) /\ Permutation (low_aces h) (h ++ low_copies h).
Proof.
  intros Hs. unfold low_aces.
  destruct (low_aces_loop_sorted_perm (rev h) h) as [Hsorted Hperm].
  - apply rank_sorted_desc, tuple_sorted_rank_sorted, Hs.
  - exact Hs.
  - split; [exact Hsorted |].
    etransitivity; [exact Hperm |].
    apply Permutation_app_head. rewrite low_copies_rev.
    symmetry. apply Permutation_rev.
Qed.

(** *** The store *)

Lemma heap_update_length (hp : heap) (l : loc) (v : list card) :
  (l < length hp)%nat -> length (heap_update hp l v) = length hp.
Proof.
  intros H. unfold heap_update.
  rewrite length_app, length_firstn. cbn [length]. rewrite length_skipn. lia.
Qed.

Lemma heap_update_same (hp : heap) (l : loc) (v : list card) :
  (l < length hp)%nat -> nth_error (heap_update hp l v) l = Some v.
Proof.
  intros H. unfold heap_update.
  rewrite nth_error_app2 by (rewrite length_firstn; lia).
  rewrite length_firstn. replace (l - Nat.min l (length hp))%nat with 0%nat by lia.
  reflexivity.
Qed.

Lemma heap_update_other (hp : heap) (l l' : loc) (v : list card) :
  (l < length hp)%nat -> l' <> l ->
  nth_error (heap_update hp l v) l' = nth_error hp l'.
Proof.
  intros H Hne. unfold heap_update.
  destruct (Nat.lt_ge_cases l' l) as [Hlt | Hge].
  - rewrite nth_error_app1 by (rewrite length_firstn; lia).
    rewrite nth_error_firstn.
    destruct (Nat.ltb_spec l' l); [reflexivity | lia].
  - rewrite nth_error_app2 by (rewrite length_firstn; lia).
    rewrite length_firstn.
    replace (l' - Nat.min l (length hp))%nat with (S (l' - S l)) by lia.
    cbn [nth_error]. rewrite nth_error_skipn. f_equal. lia.
Qed.

Lemma firstn_succ_snoc {A : Type} (l : list A) :
  forall k x, nth_error l k = Some x -> firstn (S k) l = firstn k l ++ [x].
Proof.
  induction l as [| y l IH]; intros [| k] x H; simpl in *; try discriminate.
  - injection H as ->. reflexivity.
  - f_equal. apply IH. exact H.
Qed.

Lemma low_aces_iter_agrees (h : list card) (hand new : loc) :
  hand <> new ->
  forall k hp acc,
    (k <= length h)%nat ->
    nth_error hp hand = Some h -> nth_error hp new = Some acc ->
    exists hp',
      low_aces_iter k hp hand new = Some hp' /\
      nth_error hp' new = Some (low_aces_loop (rev (firstn k h)) acc) /\
      length hp' = length hp /\
      (forall l, l <> new -> nth_error hp' l = nth_error hp l).
Proof.
  intros Hne. induction k as [| k IH]; intros hp acc Hk Hhand Hnew.
  - exists hp. simpl. auto.
  - assert (Hsome : exists c, nth_error h k = Some c).
    { destruct (nth_error h k) as [c |] eqn:E; [eauto |].
      apply nth_error_None in E. lia. }
    destruct Hsome as [[i j] Hc].
    rewrite (firstn_succ_snoc h k (i, j) Hc), rev_app_distr.
    cbn [rev app low_aces_iter low_aces_loop].
    unfold heap_item. rewrite Hhand, Hc.
    destruct (i <? card_ranks_A).
    + exists hp. auto.
    + destruct (card_ranks_A <? i).
      * apply IH; [lia | assumption | assumption].
      * unfold heap_insort. rewrite Hnew.
        assert (Hlen : (new < length hp)%nat).
        { apply nth_error_Some. rewrite Hnew. discriminate. }
        destruct (IH (heap_update hp new (insort acc (LOW_ACE, j)))
                     (insort acc (LOW_ACE, j))) as (hp' & Hrun & Hres & Hl & Hother).
        -- lia.
        -- rewrite heap_update_other by assumption. exact Hhand.
        -- apply heap_update_same. exact Hlen.
        -- exists hp'. split; [exact Hrun |]. split; [exact Hres |].
           split; [rewrite Hl; apply heap_update_length; exact Hlen |].
           intros l Hl'. rewrite Hother by exact Hl'.
           apply heap_update_other; assumption.
Qed.

End LowAces.

(** C9: for a hand stored as a list sorted in tuple order, low_aces returns
    a new list object: its location differs from the argument's, every
    list already in the store (the argument among them) is left as it was,
    and the new list is sorted and holds the cards of the hand together with
    one card (0, suit) for each ace (14, suit) of the hand. *)
Theorem low_aces_fresh_sorted_copy (hp : heap) (hand : loc) (h : list card) :
  nth_error hp hand = Some h ->
  tuple_sorted h ->
  exists hp',
    low_aces_st hp hand = Some (length hp, hp') /\
    length hp <> hand /\
    (forall l, (l < length hp)%nat -> nth_error hp' l = nth_error hp l) /\
    nth_error hp' (length hp) = Some (low_aces h) /\
    tuple_sorted (low_aces h) /\
    Permutation (low_aces h) (h ++ low_copies h).
Proof.
  intros Hhand Hs.
  assert (Hlt : (hand < length hp)%nat).
  { apply nth_error_Some. rewrite Hhand. discriminate. }
  assert (Hne : hand <> length hp) by lia.
  destruct (low_aces_iter_agrees h hand (length hp) Hne (length h) (hp ++ [h]) h)
    as (hp' & Hrun & Hres & Hlen & Hother).
  - lia.
  - rewrite nth_error_app1 by exact Hlt. exact Hhand.
  - rewrite nth_error_app2 by lia. rewrite Nat.sub_diag. reflexivity.
  - exists hp'. unfold low_aces_st, deepcopy. rewrite Hhand.
    rewrite nth_error_app1 by exact Hlt. rewrite Hhand, Hrun.
    split; [reflexivity |]. split; [lia |]. split.
    + intros l Hl. rewrite Hother by lia. apply nth_error_app1. exact Hl.
    + rewrite firstn_all in Hres. split; [exact Hres |].
      apply low_aces_sorted_perm. exact Hs.
Qed.

Lemma low_aces_fresh_sorted_copy_witness :
  exists hp',
    low_aces_st [[(2, 1); (9, 0); (14, 0); (14, 3)]] 0%nat = Some (1%nat, hp') /\
    1%nat <> 0%nat /\
    (forall l, (l < 1)%nat ->
               nth_error hp' l = nth_error [[(2, 1); (9, 0); (14, 0); (14, 3)]] l) /\
    nth_error hp' 1%nat = Some (low_aces [(2, 1); (9, 0); (14, 0); (14, 3)]) /\
    tuple_sorted (low_aces [(2, 1); (9, 0); (14, 0); (14, 3)]) /\
    Permutation (low_aces [(2, 1); (9, 0); (14, 0); (14, 3)])
                ([(2, 1); (9, 0); (14, 0); (14, 3)]
                   ++ low_copies [(2, 1); (9, 0); (14, 0); (14, 3)]).
Proof.
  apply (low_aces_fresh_sorted_copy
           [[(2, 1); (9, 0); (14, 0); (14, 3)]] 0%nat
           [(2, 1); (9, 0); (14, 0); (14, 3)]).
  - reflexivity.
  - unfold tuple_sorted. repeat constructor.
Defined.

(** ** What parsing guarantees to the detectors *)
Section Pipeline.

Lemma insert_sorted_perm (x : card) (l : list card) :
  Permutation (insert_sorted x l) (x :: l).
Proof.
  induction l as [| y l IH]; simpl.
  - reflexivity.
  - destruct (tuple_ltb y x); [| reflexivity].
    etransitivity; [apply perm_skip, IH | apply perm_swap].
Qed.

Lemma sorted_perm (l : list card) : Permutation (sorted l) l.
Proof.
  induction l as [| x l IH]; simpl.
  - reflexivity.
  - etransitivity; [apply insert_sorted_perm | apply perm_skip, IH].
Qed.

Lemma insert_sorted_sorted (x : card) (l : list card) :
  tuple_sorted l -> tuple_sorted (insert_sorted x l).
Proof.
  induction 1 as [| y l Hl IH Hy]; simpl.
  - repeat constructor.
  - destruct (tuple_ltb y x) eqn:Hyx.
    + constructor; [exact IH |].
      eapply Permutation_Forall; [symmetry; apply insert_sorted_perm |].
      constructor; [| exact Hy].
      unfold tuple_leb. apply negb_true_iff.
      apply tuple_ltb_true in Hyx. apply tuple_ltb_false. lia.
    + constructor; [constructor; assumption |].
      constructor.
      * unfold tuple_leb. rewrite Hyx. reflexivity.
      * eapply Forall_impl; [| exact Hy]. intros z Hz.
        unfold tuple_leb in *. apply negb_true_iff. apply negb_true_iff in Hz.
        apply tuple_ltb_false in Hyx, Hz. apply tuple_ltb_false. lia.
Qed.

Lemma sorted_tuple_sorted (l : list card) : tuple_sorted (sorted l).
Proof.
  induction l as [| x l IH]; simpl.
  - constructor.
  - apply insert_sorted_sorted, IH.
Qed.

(** The hand the detectors receive is sorted. *)
Lemma scrub_hand_sorted (hand : list string) (h : list card) :
  scrub_hand hand = Ok h -> tuple_sorted h /\ rank_sorted h.
Proof.
  unfold scrub_hand. destruct (scrub_tokens hand) as [cs | e]; simpl; [| discriminate].
  intros H. injection H as <-.
  split; [| apply tuple_sorted_rank_sorted]; apply sorted_tuple_sorted.
Qed.

Lemma token_card_suit (x : string) (c : card) :
  token_card x = Some c -> suit_ok c /\ 1 <= fst c <= 14.
Proof.
  unfold token_card, card_of_token.
  destruct x as [| r [| s [| u rest]]]; try discriminate.
  destruct (rank_value r) as [a |] eqn:Hr; [| discriminate].
  destruct (suit_value s) as [b |] eqn:Hs; [| discriminate].
  intros H. injection H as <-. unfold suit_ok. simpl. split.
  - unfold suit_value in Hs.
    repeat match type of Hs with
           | (if ?b then _ else _) = _ => destruct b
           end; inversion Hs; lia.
  - unfold rank_value in Hr.
    destruct ((49 <=? Z.of_N (N_of_ascii r)) && (Z.of_N (N_of_ascii r) <=? 57)) eqn:Hd.
    + injection Hr as <-. lia.
    + repeat match type of Hr with
             | (if ?b then _ else _) = _ => destruct b
             end; inversion Hr; lia.
Qed.

Lemma scrub_tokens_suits (hand : list string) :
  forall cs, scrub_tokens hand = Ok cs ->
             Forall (fun c => suit_ok c /\ 1 <= fst c <= 14) cs.
Proof.
  induction hand as [| x rest IH]; simpl; intros cs H.
  - injection H as <-. constructor.
  - rewrite scrub_token_card in H.
    destruct (token_card x) as [c |] eqn:Hx; simpl in H; [| discriminate].
    destruct (scrub_tokens rest) as [cs' | e]; simpl in H; [| discriminate].
    injection H as <-. constructor; [| apply IH; reflexivity].
    apply token_card_suit with (x := x). exact Hx.
Qed.

Lemma scrub_hand_suits (hand : list string) (h : list card) :
  scrub_hand hand = Ok h -> Forall (fun c => suit_ok c /\ 1 <= fst c <= 14) h.
Proof.
  unfold scrub_hand. destruct (scrub_tokens hand) as [cs | e] eqn:E; simpl; [| discriminate].
  intros H. injection H as <-.
  eapply Permutation_Forall; [symmetry; apply sorted_perm |].
  apply (scrub_tokens_suits hand cs E).
Qed.

Lemma low_aces_loop_Forall (P : card -> Prop) (cards : list card) :
  forall acc,
    (forall c, In c cards -> P (LOW_ACE, snd c)) -> Forall P acc ->
    Forall P (low_aces_loop cards acc).
Proof.
  induction cards as [| [i j] rest IH]; intros acc Hlow Hacc; simpl.
  - exact Hacc.
  - destruct (i <? card_ranks_A); [exact Hacc |].
    destruct (card_ranks_A <? i).
    + apply IH; [| exact Hacc]. intros c Hc. apply Hlow. right. exact Hc.
    + apply IH.
      * intros c Hc. apply Hlow. right. exact Hc.
      * eapply Permutation_Forall; [symmetry; apply insort_perm |].
        constructor; [| exact Hacc]. apply (Hlow (i, j)). left. reflexivity.
Qed.

Lemma low_aces_Forall (P : card -> Prop) (h : list card) :
  (forall c, In c h -> P (LOW_ACE, snd c)) -> Forall P h -> Forall P (low_aces h).
Proof.
  intros Hlow Hh. unfold low_aces. apply low_aces_loop_Forall; [| exact Hh].
  intros c Hc. apply Hlow. apply in_rev. exact Hc.
Qed.

End Pipeline.

(** ** The detectors never raise on a parsed hand *)
Section Totality.

Lemma suit_cases (c : card) :
  suit_ok c -> snd c = 0 \/ snd c = 1 \/ snd c = 2 \/ snd c = 3.
Proof. unfold suit_ok. lia. Qed.

Ltac by_suit H :=
  apply suit_cases in H; simpl in H;
  destruct H as [-> | [-> | [-> | ->]]].

Lemma list_get_four {A : Type} (a b c d : A) :
  list_get [a; b; c; d] 0 = Ok a /\ list_get [a; b; c; d] 1 = Ok b /\
  list_get [a; b; c; d] 2 = Ok c /\ list_get [a; b; c; d] 3 = Ok d.
Proof. repeat split. Qed.

Lemma list_set_four {A : Type} (a b c d v : A) :
  list_set [a; b; c; d] 0 v = Ok [v; b; c; d] /\
  list_set [a; b; c; d] 1 v = Ok [a; v; c; d] /\
  list_set [a; b; c; d] 2 v = Ok [a; b; v; d] /\
  list_set [a; b; c; d] 3 v = Ok [a; b; c; v].
Proof. repeat split. Qed.

(** Read and write the per-suit streaks of a four-element list. *)
Ltac streak_access :=
  repeat match goal with
    | |- context [list_get [?a; ?b; ?c; ?d] ?j] =>
        first
          [ rewrite (proj1 (list_get_four a b c d))
          | rewrite (proj1 (proj2 (list_get_four a b c d)))
          | rewrite (proj1 (proj2 (proj2 (list_get_four a b c d))))
          | rewrite (proj2 (proj2 (proj2 (list_get_four a b c d)))) ]
    | |- context [list_set [?a; ?b; ?c; ?d] ?j ?v] =>
        first
          [ rewrite (proj1 (list_set_four a b c d v))
          | rewrite (proj1 (proj2 (list_set_four a b c d v)))
          | rewrite (proj1 (proj2 (proj2 (list_set_four a b c d v))))
          | rewrite (proj2 (proj2 (proj2 (list_set_four a b c d v)))) ]
    end;
  cbn [bind].

Lemma straight_flush_loop_total (cards : list card) :
  forall a b c d,
    Forall suit_ok cards ->
    exists v, straight_flush_loop cards [a; b; c; d] = Ok v.
Proof.
  induction cards as [| [i j] rest IH]; intros a b c d Hs.
  - eexists; reflexivity.
  - inversion Hs as [| ? ? Hj Hrest]; subst. by_suit Hj;
      cbn [straight_flush_loop]; streak_access;
      match goal with
      | |- context [match ?s with Some _ => _ | None => _ end] =>
          destruct s as [[first last] |]
      end;
      repeat match goal with
             | |- context [if ?t then _ else _] => destruct t
             end;
      streak_access;
      try (eexists; reflexivity); apply IH; exact Hrest.
Qed.

Lemma flush_loop_total (cards : list card) :
  forall a b c d,
    Forall suit_ok cards ->
    exists v, flush_loop cards [a; b; c; d] = Ok v.
Proof.
  induction cards as [| [i j] rest IH]; intros a b c d Hs.
  - eexists; reflexivity.
  - inversion Hs as [| ? ? Hj Hrest]; subst. by_suit Hj;
      cbn [flush_loop]; streak_access;
      match goal with
      | |- context [match ?s with Some _ => _ | None => _ end] =>
          destruct s as [[highest count] |]
      end;
      streak_access;
      repeat match goal with
             | |- context [if ?t then _ else _] => destruct t
             end;
      try (eexists; reflexivity); apply IH; exact Hrest.
Qed.

Lemma of_kind_loop_total (cards : list card) (num : Z) :
  num = 2 \/ num = 3 \/ num = 4 ->
  forall streak, exists v, of_kind_loop cards num streak = Ok v.
Proof.
  intros Hnum. induction cards as [| [i j] rest IH]; intros streak; simpl.
  - eexists; reflexivity.
  - destruct streak as [[r c] |]; [| apply IH].
    destruct (negb (r =? i)); [apply IH |].
    destruct (c + 1 =? num); [| apply IH].
    destruct Hnum as [-> | [-> | ->]]; eexists; reflexivity.
Qed.

(** hand_rank answers on every hand that parses. *)
Lemma hand_rank_total (hand : list string) (h : list card) :
  scrub_hand hand = Ok h -> exists v, hand_rank hand = Ok v.
Proof.
  intros Hscrub. unfold hand_rank. rewrite Hscrub. cbn [bind].
  pose proof (scrub_hand_suits hand h Hscrub) as Hh.
  assert (Hsuit : Forall suit_ok h).
  { eapply Forall_impl; [| exact Hh]. intros c [Hc _]. exact Hc. }
  assert (Hboth : Forall suit_ok (low_aces h)).
  { apply low_aces_Forall; [| exact Hsuit].
    intros c Hc. rewrite Forall_forall in Hsuit. apply (Hsuit c Hc). }
  destruct (straight_flush_loop_total (rev (low_aces h)) None None None None)
    as [v1 H1]; [apply Forall_rev; exact Hboth |].
  assert (Hsf : exists v, straight_flush (low_aces h) = Ok v).
  { unfold straight_flush. rewrite H1. cbn [bind].
    destruct v1 as [[n | c t] |]; try (eexists; reflexivity).
    destruct (t =? card_ranks_A); eexists; reflexivity. }
  destruct Hsf as [vsf ->].
  destruct (of_kind_loop_total (rev h) 4 ltac:(lia) None) as [v4 H4].
  destruct (of_kind_loop_total (rev h) 3 ltac:(lia) None) as [v3 H3].
  destruct (of_kind_loop_total (rev h) 2 ltac:(lia) None) as [v2 H2].
  destruct (flush_loop_total (rev h) None None None None)
    as [vf Hf]; [apply Forall_rev; exact Hsuit |].
  fold (of_kind h 4) in H4. fold (of_kind h 3) in H3. fold (of_kind h 2) in H2.
  fold (flush h) in Hf. rewrite H4, H3, H2, Hf.
  unfold if_none. cbn [bind].
  repeat match goal with
         | |- context [match ?s with Some _ => _ | None => _ end] =>
             destruct s; cbn [bind]
         end;
    eexists; reflexivity.
Qed.

End Totality.

(** ** How far the departures reach *)
Section Departures.

(** The low ace sits at rank 0 and no card has rank 1, so a window of the
    straight detector never ends on rank 1 and a run can only be completed
    by a card of rank 2 or more: the wheel is never reported. *)
Lemma straight_loop_no_wheel (cards : list card) :
  forall streak c t,
    Forall rank_low_or_plain cards -> straight_inv streak ->
    straight_loop cards streak = Some (RTuple c t) -> 6 <= t.
Proof.
  induction cards as [| [i j] rest IH]; intros streak c t Hc Hinv; simpl.
  - discriminate.
  - inversion Hc as [| ? ? Hi Hrest]; subst. unfold rank_low_or_plain in Hi.
    simpl in Hi.
    destruct streak as [[first last] |]; simpl in Hinv.
    + destruct (Z.ltb_spec (i + 1) last).
      * apply IH; [exact Hrest | simpl; exact Hi].
      * destruct (Z.eqb_spec last i).
        -- apply IH; [exact Hrest | simpl; exact Hinv].
        -- destruct (Z.eqb_spec last (i + 1)).
           ++ destruct (Z.eqb_spec (first - i) 4).
              ** intros Hv. injection Hv as _ <-. lia.
              ** apply IH; [exact Hrest | simpl; exact Hi].
           ++ apply IH; [exact Hrest | simpl; exact Hinv].
    + apply IH; [exact Hrest | simpl; exact Hi].
Qed.

(** X20: whatever the hand of ranks 2 to 14, straight run on the
    ace-duplicated hand never answers a tiebreak below 6: the low ace sits
    at rank 0, two below the 2, so the run A-2-3-4-5 is never reported. *)
Lemma straight_never_wheel (h : list card) (c t : Z) :
  Forall (fun y => 2 <= fst y) h ->
  straight (low_aces h) = Some (RTuple c t) -> 6 <= t.
Proof.
  intros Hh. unfold straight. apply straight_loop_no_wheel; [| exact I].
  apply Forall_rev. apply low_aces_Forall.
  - intros y _. left. reflexivity.
  - eapply Forall_impl; [| exact Hh]. intros y Hy. right. exact Hy.
Qed.

(** high_card answers with the first card, the lowest of a sorted hand. *)
Lemma high_card_is_minimum (c : card) (h : list card) :
  rank_sorted (c :: h) ->
  high_card (c :: h) = Some (RTuple HIGH_CARD (fst c)) /\
  Forall (fun y => fst c <= fst y) h.
Proof.
  intros Hs. inversion Hs; subst. split; [reflexivity | assumption].
Qed.

(** Once the first streak slot holds a single card that outranks all the
    cards to come, two_pair cannot answer. *)
Lemma two_pair_loop_stuck (cards : list card) (r0 : Z) :
  forall s1,
    Forall (fun y => fst y < r0) cards ->
    two_pair_loop cards (Some (r0, 1)) s1 = None.
Proof.
  induction cards as [| [i j] rest IH]; intros s1 Hc; simpl.
  - reflexivity.
  - inversion Hc as [| ? ? Hi Hrest]; subst. simpl in Hi.
    destruct (Z.eqb_spec r0 i); [lia |].
    destruct s1 as [[r1 c1] |]; [| apply IH; exact Hrest].
    destruct (negb (r1 =? i)); [apply IH; exact Hrest |].
    simpl. apply IH; exact Hrest.
Qed.

Lemma two_pair_none_under_single_top (l : list card) (c : card) :
  Forall (fun y => fst y < fst c) l -> two_pair (l ++ [c]) = None.
Proof.
  intros Hl. unfold two_pair. rewrite rev_app_distr. destruct c as [i j].
  simpl. apply two_pair_loop_stuck. apply Forall_rev. exact Hl.
Qed.

End Departures.

(** ** The shape of the answers *)
Section Shapes.

(** Split the goal along the tests of one turn of a loop. *)
Ltac loop_cases :=
  repeat match goal with
    | |- context [match ?x with Some _ => _ | None => _ end] => destruct x as [[? ?] |]
    | |- context [match ?x with Ok _ => _ | Err _ => _ end] => destruct x
    | |- context [if ?b then _ else _] => destruct b
    end.

Lemma straight_flush_loop_shape (cards : list card) :
  forall streak v, straight_flush_loop cards streak = Ok v -> tuple_or_none v.
Proof.
  induction cards as [| [i j] rest IH]; intros streak v; simpl.
  - intros H. injection H as <-. exact I.
  - unfold bind. loop_cases; try discriminate; try apply IH;
      intros H; injection H as <-; exact I.
Qed.

Lemma of_kind_loop_shape (cards : list card) (num : Z) :
  forall streak v, of_kind_loop cards num streak = Ok v -> tuple_or_none v.
Proof.
  induction cards as [| [i j] rest IH]; intros streak v; simpl.
  - intros H. injection H as <-. exact I.
  - unfold bind. loop_cases; try discriminate; try apply IH;
      intros H; injection H as <-; exact I.
Qed.

Lemma flush_loop_shape (cards : list card) :
  forall streak v, flush_loop cards streak = Ok v -> tuple_or_none v.
Proof.
  induction cards as [| [i j] rest IH]; intros streak v; simpl.
  - intros H. injection H as <-. exact I.
  - unfold bind. loop_cases; try discriminate; try apply IH;
      intros H; injection H as <-; exact I.
Qed.

Lemma full_house_loop_shape (cards : list card) :
  forall s0 s1, tuple_or_none (full_house_loop cards s0 s1).
Proof.
  induction cards as [| [i j] rest IH]; intros s0 s1; simpl.
  - exact I.
  - loop_cases; try apply IH; exact I.
Qed.

Lemma straight_loop_shape (cards : list card) :
  forall streak, tuple_or_none (straight_loop cards streak).
Proof.
  induction cards as [| [i j] rest IH]; intros streak; simpl.
  - exact I.
  - loop_cases; try apply IH; exact I.
Qed.

Lemma two_pair_loop_shape (cards : list card) :
  forall s0 s1, tuple_or_none (two_pair_loop cards s0 s1).
Proof.
  induction cards as [| [i j] rest IH]; intros s0 s1; simpl.
  - exact I.
  - loop_cases; try apply IH; exact I.
Qed.

(** The only answer of hand_rank that is not a tuple is the bare ROYAL_FL
    of straight_flush (and None, for the empty hand). *)
Lemma hand_rank_shape (hand : list string) (v : option rankval) :
  hand_rank hand = Ok v ->
  match v with
  | Some (RInt n) => n = ROYAL_FL
  | Some (RTuple _ _) => True
  | None => hand = []
  end.
Proof.
  unfold hand_rank.
  destruct (scrub_hand hand) as [h | e] eqn:Hscrub; [| discriminate].
  cbn [bind if_none].
  destruct (straight_flush (low_aces h)) as [[v1 |] | e] eqn:H1;
    cbn [bind if_none]; try discriminate.
  { intros H. injection H as <-. unfold straight_flush, bind in H1.
    destruct (straight_flush_loop (rev (low_aces h)) [None; None; None; None])
      as [[[n | c t] |] | e] eqn:Hloop; try discriminate.
    - apply straight_flush_loop_shape in Hloop. contradiction.
    - destruct (t =? card_ranks_A); injection H1 as <-; [reflexivity | exact I]. }
  destruct (of_kind h 4) as [[v2 |] | e] eqn:H2;
    cbn [bind if_none]; try discriminate.
  { intros H. injection H as <-. apply of_kind_loop_shape in H2.
    destruct v2; [contradiction | exact I]. }
  pose proof (full_house_loop_shape (rev h) None None) as H3.
  fold (full_house h) in H3. destruct (full_house h) as [v3 |]; cbn [bind if_none].
  { intros H. injection H as <-. destruct v3; [contradiction | exact I]. }
  destruct (flush h) as [[v4 |] | e] eqn:H4;
    cbn [bind if_none]; try discriminate.
  { intros H. injection H as <-. apply flush_loop_shape in H4.
    destruct v4; [contradiction | exact I]. }
  pose proof (straight_loop_shape (rev (low_aces h)) None) as H5.
  fold (straight (low_aces h)) in H5.
  destruct (straight (low_aces h)) as [v5 |]; cbn [bind if_none].
  { intros H. injection H as <-. destruct v5; [contradiction | exact I]. }
  destruct (of_kind h 3) as [[v6 |] | e] eqn:H6;
    cbn [bind if_none]; try discriminate.
  { intros H. injection H as <-. apply of_kind_loop_shape in H6.
    destruct v6; [contradiction | exact I]. }
  pose proof (two_pair_loop_shape (rev h) None None) as H7.
  fold (two_pair h) in H7. destruct (two_pair h) as [v7 |]; cbn [bind if_none].
  { intros H. injection H as <-. destruct v7; [contradiction | exact I]. }
  destruct (of_kind h 2) as [[v8 |] | e] eqn:H8;
    cbn [bind if_none]; try discriminate.
  { intros H. injection H as <-. apply of_kind_loop_shape in H8.
    destruct v8; [contradiction | exact I]. }
  destruct h as [| c h]; simpl.
  - intros H. injection H as <-.
    unfold scrub_hand in Hscrub.
    destruct hand as [| x rest]; [reflexivity |]. exfalso.
    simpl in Hscrub. unfold bind in Hscrub.
    destruct (scrub_token x) as [c0 |]; [| discriminate].
    destruct (scrub_tokens rest) as [cs |]; [| discriminate].
    injection Hscrub as Hs. apply (f_equal (@length _)) in Hs.
    pose proof (Permutation_length (sorted_perm (c0 :: cs))) as Hlen.
    simpl in Hs, Hlen. rewrite Hs in Hlen. discriminate.
  - intros H. injection H as <-. exact I.
Qed.

End Shapes.

(** * More of the program *)

(** ** scrub_hand: what it hands to the detectors *)
Section ScrubMore.

Lemma scrub_tokens_length (hand : list string) :
  forall cs, scrub_tokens hand = Ok cs -> length cs = length hand.
Proof.
  induction hand as [| x rest IH]; simpl; intros cs H.
  - injection H as <-. reflexivity.
  - unfold bind in H. destruct (scrub_token x) as [c |]; [| discriminate].
    destruct (scrub_tokens rest) as [cs' |]; [| discriminate].
    injection H as <-. simpl. f_equal. apply IH. reflexivity.
Qed.

Lemma scrub_hand_length (hand : list string) (h : list card) :
  scrub_hand hand = Ok h -> length h = length hand.
Proof.
  unfold scrub_hand, bind.
  destruct (scrub_tokens hand) as [cs |] eqn:E; [| discriminate].
  intros H. injection H as <-.
  rewrite (Permutation_length (sorted_perm cs)).
  apply scrub_tokens_length. exact E.
Qed.

Lemma scrub_tokens_error (hand : list string) (e : exn) :
  scrub_tokens hand = Err e -> e = KeyError.
Proof.
  induction hand as [| x rest IH]; simpl.
  - discriminate.
  - rewrite scrub_token_card. unfold bind.
    destruct (token_card x) as [c |].
    + destruct (scrub_tokens rest) as [cs | e']; [discriminate |].
      intros H. injection H as <-. apply IH. reflexivity.
    + intros H. injection H as <-. reflexivity.
Qed.

Lemma scrub_hand_error (hand : list string) (e : exn) :
  scrub_hand hand = Err e <-> e = KeyError /\ exists x, In x hand /\ token_card x = None.
Proof.
  rewrite <- scrub_tokens_fail. unfold scrub_hand, bind.
  destruct (scrub_tokens hand) as [cs | e'] eqn:E.
  - split; [discriminate | intros [_ H]; discriminate].
  - pose proof (scrub_tokens_error hand e' E) as ->. split.
    + intros H. injection H as <-. auto.
    + intros [-> _]. reflexivity.
Qed.

Lemma tuple_ltb_total (x y : card) :
  tuple_ltb x y = false -> tuple_ltb y x = false -> x = y.
Proof.
  rewrite !tuple_ltb_false. destruct x, y; simpl. intros; f_equal; lia.
Qed.

(** The order in which two cards are inserted does not matter. *)
Lemma insert_sorted_comm (x y : card) (l : list card) :
  insert_sorted x (insert_sorted y l) = insert_sorted y (insert_sorted x l).
Proof.
  induction l as [| z l IH]; simpl.
  - destruct (tuple_ltb y x) eqn:Hyx, (tuple_ltb x y) eqn:Hxy; try reflexivity.
    + apply tuple_ltb_true in Hyx, Hxy. lia.
    + rewrite (tuple_ltb_total x y Hxy Hyx). reflexivity.
  - destruct (tuple_ltb z y) eqn:Hzy, (tuple_ltb z x) eqn:Hzx; simpl;
      rewrite ?Hzy, ?Hzx.
    + f_equal. exact IH.
    + assert (Hxy : tuple_ltb x y = true).
      { apply tuple_ltb_true. apply tuple_ltb_true in Hzy.
        apply tuple_ltb_false in Hzx. lia. }
      rewrite Hxy. simpl. rewrite ?Hzy. reflexivity.
    + assert (Hyx : tuple_ltb y x = true).
      { apply tuple_ltb_true. apply tuple_ltb_true in Hzx.
        apply tuple_ltb_false in Hzy. lia. }
      rewrite Hyx. simpl. rewrite ?Hzx. reflexivity.
    + destruct (tuple_ltb y x) eqn:Hyx, (tuple_ltb x y) eqn:Hxy; simpl;
        rewrite ?Hzy, ?Hzx; try reflexivity.
      * apply tuple_ltb_true in Hyx, Hxy. lia.
      * rewrite (tuple_ltb_total x y Hxy Hyx). reflexivity.
Qed.

Lemma sorted_of_perm (l l' : list card) : Permutation l l' -> sorted l = sorted l'.
Proof.
  induction 1 as [| x l l' _ IH | x y l | l l' l'' _ IH1 _ IH2]; simpl.
  - reflexivity.
  - rewrite IH. reflexivity.
  - apply insert_sorted_comm.
  - congruence.
Qed.

Lemma scrub_tokens_of_perm (hand hand' : list string) :
  Permutation hand hand' ->
  match scrub_tokens hand, scrub_tokens hand' with
  | Ok cs, Ok cs' => Permutation cs cs'
  | Err _, Err _ => True
  | _, _ => False
  end.
Proof.
  induction 1 as [| x l l' _ IH | x y l | l l' l'' _ IH1 _ IH2]; simpl.
  - constructor.
  - unfold bind. destruct (scrub_token x); [| exact I].
    destruct (scrub_tokens l), (scrub_tokens l'); try contradiction; auto.
  - unfold bind. destruct (scrub_token x), (scrub_token y); try exact I.
    destruct (scrub_tokens l); [apply perm_swap | exact I].
  - destruct (scrub_tokens l), (scrub_tokens l'), (scrub_tokens l'');
      try contradiction; try exact I.
    etransitivity; eassumption.
Qed.

Lemma scrub_hand_of_perm (hand hand' : list string) :
  Permutation hand hand' -> scrub_hand hand = scrub_hand hand'.
Proof.
  intros Hp. pose proof (scrub_tokens_of_perm hand hand' Hp) as H.
  unfold scrub_hand, bind.
  destruct (scrub_tokens hand) as [cs | e] eqn:E,
           (scrub_tokens hand') as [cs' | e'] eqn:E'; try contradiction.
  - f_equal. apply sorted_of_perm. exact H.
  - rewrite (scrub_tokens_error hand e E), (scrub_tokens_error hand' e' E').
    reflexivity.
Qed.

End ScrubMore.

(** X1: when scrub_hand succeeds, its result has one card per token, is
    sorted ascending in tuple order, and every card has a rank from 1 to 14
    and a suit number from 0 to 3. *)
Theorem scrub_hand_output (hand : list string) (h : list card) :
  scrub_hand hand = Ok h ->
  length h = length hand /\
  tuple_sorted h /\
  Forall (fun c => 1 <= fst c <= 14 /\ 0 <= snd c <= 3) h.
Proof.
  intros H. split; [apply scrub_hand_length; exact H |].
  split; [apply (scrub_hand_sorted hand h H) |].
  eapply Forall_impl; [| apply (scrub_hand_suits hand h H)].
  intros c [Hs Hr]. split; assumption.
Qed.

Lemma scrub_hand_output_witness :
  length [(9, 1); (10, 0); (14, 3)] = length ["AH"; "9S"; "TC"]%string /\
  tuple_sorted [(9, 1); (10, 0); (14, 3)] /\
  Forall (fun c => 1 <= fst c <= 14 /\ 0 <= snd c <= 3) [(9, 1); (10, 0); (14, 3)].
Proof.
  apply (scrub_hand_output ["AH"; "9S"; "TC"]%string). reflexivity.
Defined.

(** X2: the order of the tokens of a hand does not matter: two hands that
    are permutations of each other are scrubbed to the same list (or both
    raise the same error) and get the same rank. *)
Theorem hand_rank_order_insensitive (hand hand' : list string) :
  Permutation hand hand' ->
  scrub_hand hand = scrub_hand hand' /\ hand_rank hand = hand_rank hand'.
Proof.
  intros Hp. pose proof (scrub_hand_of_perm hand hand' Hp) as H.
  split; [exact H |]. unfold hand_rank. rewrite H. reflexivity.
Qed.

Lemma hand_rank_order_insensitive_witness :
  scrub_hand ["AH"; "9S"; "TC"]%string = scrub_hand ["9S"; "AH"; "TC"]%string /\
  hand_rank ["AH"; "9S"; "TC"]%string = hand_rank ["9S"; "AH"; "TC"]%string.
Proof.
  apply hand_rank_order_insensitive. apply perm_swap.
Defined.

(** X3: hand_rank raises exactly when parsing does: the only error is a
    KeyError, and it is raised if and only if some token is not a rank
    character followed by a suit character of the two dicts. *)
Theorem hand_rank_raises_iff_bad_token (hand : list string) (e : exn) :
  hand_rank hand = Err e <->
  e = KeyError /\ exists x, In x hand /\ token_card x = None.
Proof.
  rewrite <- scrub_hand_error. split.
  - intros H. destruct (scrub_hand hand) as [h | e'] eqn:E.
    + destruct (hand_rank_total hand h E) as [v Hv]. congruence.
    + unfold hand_rank in H. rewrite E in H. cbn [bind] in H. congruence.
  - intros H. unfold hand_rank. rewrite H. reflexivity.
Qed.

(** X4: hand_rank answers None for the empty hand and for no other hand. *)
Theorem hand_rank_none_iff_empty (hand : list string) :
  hand_rank hand = Ok None <-> hand = [].
Proof.
  split.
  - intros H. apply (hand_rank_shape hand None H).
  - intros ->. reflexivity.
Qed.

(** ** low_aces: hands without aces, and a second call *)
Section LowAcesMore.

Lemma low_aces_loop_no_ace (cards : list card) :
  forall acc, Forall (fun c => fst c <> 14) cards -> low_aces_loop cards acc = acc.
Proof.
  induction cards as [| [i j] rest IH]; intros acc Hc; simpl.
  - reflexivity.
  - inversion Hc as [| ? ? Hi Hrest]; subst. simpl in Hi. unfold card_ranks_A.
    destruct (Z.ltb_spec i 14); [reflexivity |].
    destruct (Z.ltb_spec 14 i); [apply IH; exact Hrest | lia].
Qed.

Lemma low_copies_app (l1 l2 : list card) :
  low_copies (l1 ++ l2) = low_copies l1 ++ low_copies l2.
Proof. unfold low_copies. rewrite filter_app, map_app. reflexivity. Qed.

Lemma low_copies_of_perm (l l' : list card) :
  Permutation l l' -> Permutation (low_copies l) (low_copies l').
Proof.
  induction 1 as [| [i s] l l' _ IH | [i s] [i' s'] l | l l' l'' _ IH1 _ IH2].
  - constructor.
  - unfold low_copies in *. simpl. destruct (i =? 14); simpl; auto.
  - unfold low_copies. simpl.
    destruct (i =? 14), (i' =? 14); simpl; try reflexivity. apply perm_swap.
  - etransitivity; eassumption.
Qed.

Lemma low_copies_of_low_copies (l : list card) : low_copies (low_copies l) = [].
Proof.
  unfold low_copies. induction l as [| [i s] l IH]; simpl.
  - reflexivity.
  - destruct (i =? 14); simpl; exact IH.
Qed.

End LowAcesMore.

(** X5: a hand that holds no ace passes through low_aces unchanged,
    whatever its order. *)
Theorem low_aces_without_aces (h : list card) :
  Forall (fun c => fst c <> 14) h -> low_aces h = h.
Proof.
  intros H. unfold low_aces. apply low_aces_loop_no_ace.
  apply Forall_rev. exact H.
Qed.

Lemma low_aces_without_aces_witness :
  low_aces [(2, 1); (9, 0); (13, 3)] = [(2, 1); (9, 0); (13, 3)].
Proof.
  apply low_aces_without_aces. repeat constructor; simpl; lia.
Defined.

(** X6: low_aces is not idempotent: applied a second time to its own
    result it inserts the low cards once more, so that a sorted hand ends
    up, still sorted, with two cards (0, suit) for each ace. *)
Theorem low_aces_twice (h : list card) :
  tuple_sorted h ->
  tuple_sorted (low_aces (low_aces h)) /\
  Permutation (low_aces (low_aces h)) (h ++ low_copies h ++ low_copies h).
Proof.
  intros Hs.
  destruct (low_aces_sorted_perm h Hs) as [Hs1 Hp1].
  destruct (low_aces_sorted_perm (low_aces h) Hs1) as [Hs2 Hp2].
  split; [exact Hs2 |].
  etransitivity; [exact Hp2 |].
  etransitivity; [apply Permutation_app; [exact Hp1 | apply low_copies_of_perm, Hp1] |].
  rewrite low_copies_app, low_copies_of_low_copies, app_nil_r, app_assoc.
  reflexivity.
Qed.

Lemma low_aces_twice_witness :
  tuple_sorted (low_aces (low_aces [(9, 1); (14, 3)])) /\
  Permutation (low_aces (low_aces [(9, 1); (14, 3)]))
              ([(9, 1); (14, 3)] ++ low_copies [(9, 1); (14, 3)]
                 ++ low_copies [(9, 1); (14, 3)]).
Proof.
  apply low_aces_twice. unfold tuple_sorted. repeat constructor.
Defined.

(** ** poker: the hand returned *)
Section PokerMore.
Context {A : Type} (key : A -> result (option rankval)).

Lemma max_loop_member (items : list A) :
  forall m mv w,
    max_loop key items m mv = Ok w -> w = m \/ In w items.
Proof.
  induction items as [| item rest IH]; intros m mv w; simpl.
  - intros H. injection H as <-. left. reflexivity.
  - unfold bind. destruct (key item) as [val |]; [| discriminate].
    destruct (py_gt val mv) as [[] |]; [| | discriminate]; intros H;
      apply IH in H; destruct H as [-> | H]; auto.
Qed.

Lemma max_loop_keys (items : list A) :
  forall m mv w,
    max_loop key items m mv = Ok w ->
    Forall (fun x => exists v, key x = Ok v) items.
Proof.
  induction items as [| item rest IH]; intros m mv w; simpl.
  - constructor.
  - unfold bind. destruct (key item) as [val |] eqn:E; [| discriminate].
    destruct (py_gt val mv) as [[] |]; [| | discriminate]; intros H;
      apply IH in H; constructor; eauto.
Qed.

End PokerMore.

(** X7: when poker returns, the result is one of the hands it was given,
    and every hand of the sequence has been parsed and ranked without
    error. *)
Theorem poker_returns_input_hand (hands : list (list string)) (w : list string) :
  poker hands = Ok w ->
  In w hands /\ Forall (fun h => exists v, hand_rank h = Ok v) hands.
Proof.
  unfold poker, max_key. destruct hands as [| item rest]; [discriminate |].
  unfold bind. destruct (hand_rank item) as [val |] eqn:E; [| discriminate].
  intros H. split.
  - apply max_loop_member in H. destruct H as [-> | H]; [left | right]; auto.
  - constructor; [eauto | apply (max_loop_keys hand_rank rest item (val) w H)].
Qed.

Lemma poker_returns_input_hand_witness :
  In Hands.fk [Hands.fk; Hands.fh] /\
  Forall (fun h => exists v, hand_rank h = Ok v) [Hands.fk; Hands.fh].
Proof.
  apply (poker_returns_input_hand [Hands.fk; Hands.fh] Hands.fk). reflexivity.
Defined.

(** ** of_kind *)
Section OfKind.

Lemma count_rank_snoc (r i j : Z) (pre : list card) :
  count_rank r (pre ++ [(i, j)]) = count_rank r pre + (if i =? r then 1 else 0).
Proof.
  rewrite count_rank_app. f_equal.
  destruct (Z.eqb_spec i r) as [-> | Hne].
  - apply count_rank_one_eq.
  - apply count_rank_one_ne. exact Hne.
Qed.

Lemma of_kind_loop_post (num : Z) (rest : list card) :
  2 <= num ->
  forall pre streak l,
    rank_desc rest -> l = pre ++ rest -> of_kind_inv num pre rest streak ->
    of_kind_post num l (of_kind_loop rest num streak).
Proof.
  intros Hnum. induction rest as [| [i j] rest IH];
    intros pre streak l Hd Hl [Hlow Hinv].
  - left. split; [reflexivity |]. rewrite Hl, app_nil_r. exact Hlow.
  - apply rank_desc_inv in Hd. destruct Hd as [Hd Hle]. simpl in Hle.
    cbn [of_kind_loop].
    assert (Hl' : l = (pre ++ [(i, j)]) ++ rest)
      by (rewrite <- app_assoc; exact Hl).
    destruct streak as [[r c] |].
    + destruct Hinv as (Hc & Hpre & Hrest).
      inversion Hrest as [| ? ? Hi Hrest']; subst c. simpl in Hi.
      destruct (Z.eqb_spec r i) as [-> | Hne]; cbn [negb].
      * destruct (Z.eqb_spec (count_rank i pre + 1) num) as [Hfull | Hnot].
        -- right. exists i. split; [reflexivity |]. split.
           ++ rewrite Hl', count_rank_app, count_rank_snoc, Z.eqb_refl.
              pose proof (count_rank_nonneg i rest). lia.
           ++ intros r' Hr'.
              rewrite Hl', count_rank_app, count_rank_snoc.
              rewrite (count_rank_below r' i rest) by assumption.
              destruct (Z.eqb_spec i r'); [lia |]. specialize (Hlow r'). lia.
        -- apply (IH (pre ++ [(i, j)])); [exact Hd | exact Hl' |]. split.
           ++ intros r'. rewrite count_rank_snoc.
              destruct (Z.eqb_spec i r') as [<- | Hne].
              ** specialize (Hlow i). lia.
              ** specialize (Hlow r'). lia.
           ++ repeat split.
              ** rewrite count_rank_snoc, Z.eqb_refl. reflexivity.
              ** apply Forall_app. split; [exact Hpre |].
                 repeat constructor. simpl. lia.
              ** exact Hle.
      * apply (IH (pre ++ [(i, j)])); [exact Hd | exact Hl' |]. split.
        -- intros r'. rewrite count_rank_snoc.
           destruct (Z.eqb_spec i r') as [<- | Hne'].
           ++ rewrite (count_rank_above i r pre) by (assumption || lia). lia.
           ++ specialize (Hlow r'). lia.
        -- repeat split.
           ++ rewrite count_rank_snoc, Z.eqb_refl.
              rewrite (count_rank_above i r pre) by (assumption || lia). lia.
           ++ apply Forall_app. split.
              ** apply Forall_weaken_ge with (b := r); [lia | exact Hpre].
              ** repeat constructor. simpl. lia.
           ++ exact Hle.
    + subst pre. apply (IH ([] ++ [(i, j)])); [exact Hd | exact Hl' |]. split.
      * intros r'. rewrite count_rank_snoc, count_rank_nil.
        destruct (i =? r'); lia.
      * repeat split.
        -- rewrite count_rank_snoc, Z.eqb_refl. reflexivity.
        -- repeat constructor. simpl. lia.
        -- exact Hle.
Qed.

Lemma of_kind_sorted_post (num : Z) (h : list card) :
  2 <= num -> rank_sorted h -> of_kind_post num h (of_kind h num).
Proof.
  intros Hnum Hs.
  pose proof (of_kind_loop_post num (rev h) Hnum [] None (rev h)) as H.
  unfold of_kind.
  destruct H as [[Hres Hlow] | (r & Hres & Hr & Hhigh)].
  - apply rank_sorted_desc; exact Hs.
  - reflexivity.
  - split; [intros r; rewrite count_rank_nil; lia | reflexivity].
  - left. split; [exact Hres |]. intros r. rewrite <- count_rank_rev. apply Hlow.
  - right. exists r. split; [exact Hres |]. split.
    + rewrite <- count_rank_rev. exact Hr.
    + intros r' Hr'. rewrite <- count_rank_rev. apply Hhigh. exact Hr'.
Qed.

(** A streak holds at least one card, so a count of one or less is never
    the count just reached. *)
Lemma of_kind_loop_small (num : Z) (cards : list card) :
  num <= 1 ->
  forall streak,
    match streak with Some (_, c) => 1 <= c | None => True end ->
    of_kind_loop cards num streak = Ok None.
Proof.
  intros Hnum. induction cards as [| [i j] rest IH]; intros streak Hc; simpl.
  - reflexivity.
  - destruct streak as [[r c] |]; [| apply IH; lia].
    destruct (negb (r =? i)); [apply IH; lia |].
    destruct (Z.eqb_spec (c + 1) num); [lia | apply IH; lia].
Qed.

End OfKind.



(** X9: of_kind has no entry in kind_to_rank for a num of 5 or more (nor
    for any num from 2 up other than 2, 3, 4): on a sorted hand it raises
    KeyError exactly when some rank is held num times, and answers None
    otherwise. *)
Theorem of_kind_missing_key (h : list card) (num : Z) :
  rank_sorted h -> 5 <= num ->
  (of_kind h num = Err KeyError <-> exists r, num <= count_rank r h) /\
  (of_kind h num = Ok None <-> forall r, count_rank r h < num).
Proof.
  intros Hs Hnum.
  assert (Hget : int_dict_get kind_to_rank num = Err KeyError).
  { unfold kind_to_rank. cbn [int_dict_get].
    destruct (Z.eqb_spec 2 num); [lia |].
    destruct (Z.eqb_spec 3 num); [lia |].
    destruct (Z.eqb_spec 4 num); [lia | reflexivity]. }
  destruct (of_kind_sorted_post num h ltac:(lia) Hs)
    as [[Hres Hlow] | (r & Hres & Hr & Hhigh)];
    rewrite Hres; try rewrite Hget; cbn [bind].
  - split; [| tauto]. split; [discriminate |].
    intros [r Hr]. specialize (Hlow r). lia.
  - split.
    + split; [eauto | reflexivity].
    + split; [discriminate |]. intros Hlow. specialize (Hlow r). lia.
Qed.

Lemma of_kind_missing_key_witness :
  (of_kind [(9, 0); (9, 1); (9, 2); (9, 3); (9, 3)] 5 = Err KeyError <->
   exists r, 5 <= count_rank r [(9, 0); (9, 1); (9, 2); (9, 3); (9, 3)]) /\
  (of_kind [(9, 0); (9, 1); (9, 2); (9, 3); (9, 3)] 5 = Ok None <->
   forall r, count_rank r [(9, 0); (9, 1); (9, 2); (9, 3); (9, 3)] < 5).
Proof.
  apply of_kind_missing_key.
  - unfold rank_sorted. repeat constructor; simpl; lia.
  - lia.
Defined.

(** X10: asked for one card of a kind (or fewer), of_kind never finds
    anything: the count is only tested after a second card of the same rank
    has been seen, so the answer is None for every hand. *)
Theorem of_kind_one_is_none (h : list card) (num : Z) :
  num <= 1 -> of_kind h num = Ok None.
Proof.
  intros Hnum. unfold of_kind. apply of_kind_loop_small; [exact Hnum | exact I].
Qed.

Lemma of_kind_one_is_none_witness :
  of_kind [(7, 2); (9, 0); (9, 1)] 1 = Ok None.
Proof. apply of_kind_one_is_none. lia. Defined.

(** ** straight *)
Section Straight.

Lemma holds_rank_snoc (pre : list card) (i j r : Z) :
  holds_rank (pre ++ [(i, j)]) r <-> holds_rank pre r \/ r = i.
Proof.
  unfold holds_rank. rewrite map_app, in_app_iff. simpl. intuition.
Qed.

Lemma holds_rank_app (l1 l2 : list card) (r : Z) :
  holds_rank (l1 ++ l2) r <-> holds_rank l1 r \/ holds_rank l2 r.
Proof. unfold holds_rank. rewrite map_app, in_app_iff. reflexivity. Qed.

Lemma holds_rank_ge (b : Z) (l : list card) (r : Z) :
  Forall (fun y => b <= fst y) l -> holds_rank l r -> b <= r.
Proof.
  intros Hl Hr. unfold holds_rank in Hr. apply in_map_iff in Hr.
  destruct Hr as (c & <- & Hc). rewrite Forall_forall in Hl. apply Hl. exact Hc.
Qed.

Lemma holds_rank_le (b : Z) (l : list card) (r : Z) :
  Forall (fun y => fst y <= b) l -> holds_rank l r -> r <= b.
Proof.
  intros Hl Hr. unfold holds_rank in Hr. apply in_map_iff in Hr.
  destruct Hr as (c & <- & Hc). rewrite Forall_forall in Hl. apply Hl. exact Hc.
Qed.

Lemma holds_rank_rev (l : list card) (r : Z) :
  holds_rank (rev l) r <-> holds_rank l r.
Proof. unfold holds_rank. rewrite map_rev. symmetry. apply in_rev. Qed.

(** A card at the bottom opens no run if one of the four ranks just above
    it is missing. *)
Lemma no_run_snoc (pre : list card) (i j m : Z) :
  (forall t, ~ run_of_five pre t) ->
  Forall (fun y => i <= fst y) pre ->
  i < m <= i + 4 -> ~ holds_rank pre m ->
  forall t, ~ run_of_five (pre ++ [(i, j)]) t.
Proof.
  intros Hno Hpre Hm Hmiss t Hrun.
  assert (Hbot : i <= t - 4).
  { assert (H : holds_rank (pre ++ [(i, j)]) (t - 4)) by (apply Hrun; lia).
    apply holds_rank_snoc in H. destruct H as [H | H]; [| lia].
    apply (holds_rank_ge i pre); assumption. }
  destruct (Z.eq_dec i (t - 4)) as [Heq | Hne].
  - assert (H : holds_rank (pre ++ [(i, j)]) m) by (apply Hrun; lia).
    apply holds_rank_snoc in H. destruct H as [H | H]; [contradiction | lia].
  - apply (Hno t). intros r Hr.
    assert (H : holds_rank (pre ++ [(i, j)]) r) by (apply Hrun; exact Hr).
    apply holds_rank_snoc in H. destruct H as [H | H]; [exact H | lia].
Qed.

(** A card of a rank already held opens no run. *)
Lemma no_run_snoc_held (pre : list card) (i j : Z) :
  (forall t, ~ run_of_five pre t) -> holds_rank pre i ->
  forall t, ~ run_of_five (pre ++ [(i, j)]) t.
Proof.
  intros Hno Hi t Hrun. apply (Hno t). intros r Hr.
  assert (H : holds_rank (pre ++ [(i, j)]) r) by (apply Hrun; exact Hr).
  apply holds_rank_snoc in H. destruct H as [H | ->]; assumption.
Qed.

Lemma no_run_single (i j : Z) : forall t, ~ run_of_five [(i, j)] t.
Proof.
  intros t Hrun.
  assert (H1 : holds_rank [(i, j)] t) by (apply Hrun; lia).
  assert (H2 : holds_rank [(i, j)] (t - 4)) by (apply Hrun; lia).
  unfold holds_rank in *. simpl in *. lia.
Qed.

Lemma straight_loop_post (rest : list card) :
  forall pre streak l,
    rank_desc rest -> l = pre ++ rest -> straight_scan_inv pre rest streak ->
    straight_post l (straight_loop rest streak).
Proof.
  induction rest as [| [i j] rest IH]; intros pre streak l Hd Hl [Hno Hinv].
  - left. split; [reflexivity |]. rewrite Hl, app_nil_r. exact Hno.
  - apply rank_desc_inv in Hd. destruct Hd as [Hd Hle]. simpl in Hle.
    cbn [straight_loop].
    assert (Hl' : l = (pre ++ [(i, j)]) ++ rest)
      by (rewrite <- app_assoc; exact Hl).
    destruct streak as [[first last] |].
    + destruct Hinv as (Hwin & Hheld & Hmiss & Hpre & Hrest).
      pose proof (Forall_inv Hrest) as Hi. simpl in Hi.
      assert (Hsnoc : Forall (fun y => i <= fst y) (pre ++ [(i, j)])).
      { apply Forall_app. split.
        - apply Forall_weaken_ge with (b := last); assumption.
        - repeat constructor. simpl. lia. }
      destruct (Z.ltb_spec (i + 1) last) as [Hgap | Hnear].
      * (* a gap: the window restarts at this card *)
        assert (Hnext : ~ holds_rank pre (i + 1)).
        { intros H. apply (holds_rank_ge last) in H; [lia | exact Hpre]. }
        apply (IH (pre ++ [(i, j)])); [exact Hd | exact Hl' |]. split.
        -- apply no_run_snoc with (m := i + 1); try assumption; try lia.
           apply Forall_weaken_ge with (b := last); [lia | exact Hpre].
        -- repeat split; try lia; try assumption.
           ++ intros r Hr. apply holds_rank_snoc. right. lia.
           ++ intros H. apply holds_rank_snoc in H. destruct H; [auto | lia].
      * destruct (Z.eqb_spec last i) as [-> | Hne].
        -- (* the same rank again *)
           assert (Hheld_i : holds_rank pre i) by (apply Hheld; lia).
           apply (IH (pre ++ [(i, j)])); [exact Hd | exact Hl' |]. split.
           ++ apply no_run_snoc_held; assumption.
           ++ repeat split; try lia; try assumption.
              ** intros r Hr. apply holds_rank_snoc. left. apply Hheld. exact Hr.
              ** intros H. apply holds_rank_snoc in H. destruct H; [auto | lia].
        -- destruct (Z.eqb_spec last (i + 1)) as [-> | Hne1]; [| lia].
           destruct (Z.eqb_spec (first - i) 4) as [Hfive | Hshort].
           ++ (* the fifth rank of the run *)
              right. exists first. split; [reflexivity |]. rewrite Hl'. split.
              ** intros r Hr. apply holds_rank_app. left.
                 apply holds_rank_snoc.
                 destruct (Z.eq_dec r i); [right; assumption |].
                 left. apply Hheld. lia.
              ** intros t' Hrun.
                 destruct (Z.le_gt_cases t' first) as [Hok | Hhigh]; [exact Hok |].
                 exfalso. apply (Hno t'). intros r Hr.
                 assert (H : holds_rank ((pre ++ [(i, j)]) ++ rest) r)
                   by (apply Hrun; exact Hr).
                 apply holds_rank_app in H. destruct H as [H | H].
                 --- apply holds_rank_snoc in H. destruct H as [H | H]; [exact H | lia].
                 --- apply (holds_rank_le i) in H; [lia | exact Hle].
           ++ apply (IH (pre ++ [(i, j)])); [exact Hd | exact Hl' |]. split.
              ** apply no_run_snoc with (m := first + 1); try assumption; try lia.
                 apply Forall_weaken_ge with (b := i + 1); [lia | exact Hpre].
              ** repeat split; try lia; try assumption.
                 --- intros r Hr. apply holds_rank_snoc.
                     destruct (Z.eq_dec r i); [right; assumption |].
                     left. apply Hheld. lia.
                 --- intros H. apply holds_rank_snoc in H. destruct H; [auto | lia].
    + subst pre. apply (IH ([] ++ [(i, j)])); [exact Hd | exact Hl' |]. split.
      * apply no_run_single.
      * repeat split; try lia.
        -- intros r Hr. apply holds_rank_snoc. right. lia.
        -- unfold holds_rank. simpl. lia.
        -- repeat constructor. simpl. lia.
        -- exact Hle.
Qed.

Lemma run_of_five_rev (l : list card) (t : Z) :
  run_of_five (rev l) t <-> run_of_five l t.
Proof.
  unfold run_of_five. split; intros H r Hr; apply holds_rank_rev; apply H; exact Hr.
Qed.

End Straight.

(** X11: on a hand sorted ascending by rank, straight answers None exactly
    when the hand does not hold five consecutive ranks (cards of equal rank
    in between do not matter); otherwise it answers (STRAIGHT, t) where t
    is the top of the highest run of five consecutive ranks. *)
Theorem straight_highest_run (h : list card) :
  rank_sorted h ->
  (straight h = None <-> forall t, ~ run_of_five h t) /\
  (forall v, straight h = Some v ->
             exists t, v = RTuple STRAIGHT t /\ run_of_five h t /\
                       forall t', run_of_five h t' -> t' <= t).
Proof.
  intros Hs.
  assert (H : straight_post (rev h) (straight h)).
  { unfold straight. apply (straight_loop_post (rev h) [] None).
    - apply rank_sorted_desc; exact Hs.
    - reflexivity.
    - split; [| reflexivity]. intros t Hrun.
      apply (Hrun t). lia. }
  destruct H as [[Hres Hno] | (t & Hres & Hrun & Hmax)]; rewrite Hres.
  - split; [| discriminate]. split; [| reflexivity].
    intros _ t Hrun. apply (Hno t). apply run_of_five_rev. exact Hrun.
  - split.
    + split; [discriminate |]. intros Hno. exfalso.
      apply (Hno t). apply run_of_five_rev. exact Hrun.
    + intros v Hv. injection Hv as <-. exists t. split; [reflexivity |].
      split; [apply run_of_five_rev; exact Hrun |].
      intros t' Ht'. apply Hmax. apply run_of_five_rev. exact Ht'.
Qed.

Lemma straight_highest_run_witness :
  (straight [(2, 0); (3, 0); (4, 0); (5, 1); (6, 1); (6, 2)] = None <->
   forall t, ~ run_of_five [(2, 0); (3, 0); (4, 0); (5, 1); (6, 1); (6, 2)] t) /\
  (forall v, straight [(2, 0); (3, 0); (4, 0); (5, 1); (6, 1); (6, 2)] = Some v ->
             exists t, v = RTuple STRAIGHT t /\
                       run_of_five [(2, 0); (3, 0); (4, 0); (5, 1); (6, 1); (6, 2)] t /\
                       forall t', run_of_five
                                    [(2, 0); (3, 0); (4, 0); (5, 1); (6, 1); (6, 2)] t' ->
                                  t' <= t).
Proof.
  apply straight_highest_run.
  unfold rank_sorted. repeat constructor; simpl; lia.
Defined.

(** ** two_pair: what it finds *)
Section TwoPairMore.

Lemma count_rank_cons_if (r i j : Z) (l : list card) :
  count_rank r ((i, j) :: l) = (if i =? r then 1 else 0) + count_rank r l.
Proof.
  rewrite count_rank_cons. f_equal.
  destruct (Z.eqb_spec i r) as [-> | Hne].
  - apply count_rank_one_eq.
  - apply count_rank_one_ne. exact Hne.
Qed.

(** With a first slot that does not hold exactly two cards, nothing below
    it can complete two pairs. *)
Lemma two_pair_loop_first_not_pair (top c0 : Z) (cards : list card) :
  c0 <> 2 ->
  forall s1,
    Forall (fun y => fst y < top) cards ->
    two_pair_loop cards (Some (top, c0)) s1 = None.
Proof.
  intros Hc0. induction cards as [| [i j] rest IH]; intros s1 Hc; simpl.
  - reflexivity.
  - inversion Hc as [| ? ? Hi Hrest]; subst. simpl in Hi.
    destruct (Z.eqb_spec top i); [lia |].
    destruct s1 as [[r1 c1] |]; [| apply IH; exact Hrest].
    destruct (negb (r1 =? i)); [apply IH; exact Hrest |].
    destruct (Z.eqb_spec c0 2); [contradiction |]. simpl.
    apply IH; exact Hrest.
Qed.

(** With a pair in the first slot and one card in the second, the scan
    below behaves as a search for one more pair. *)
Lemma two_pair_loop_second_pair (top : Z) (rest : list card) :
  forall r1,
    rank_desc rest -> Forall (fun y => fst y <= r1) rest -> r1 < top ->
    (two_pair_loop rest (Some (top, 2)) (Some (r1, 1)) = Some (RTuple TWO_PAIR top) /\
     exists r2, r2 <= r1 /\ 2 <= (if r1 =? r2 then 1 else 0) + count_rank r2 rest) \/
    (two_pair_loop rest (Some (top, 2)) (Some (r1, 1)) = None /\
     forall r2, (if r1 =? r2 then 1 else 0) + count_rank r2 rest < 2).
Proof.
  induction rest as [| [i j] rest IH]; intros r1 Hd Hle Hlt.
  - right. split; [reflexivity |]. intros r2. rewrite count_rank_nil.
    destruct (r1 =? r2); lia.
  - apply rank_desc_inv in Hd. destruct Hd as [Hd Hle']. simpl in Hle'.
    pose proof (Forall_inv Hle) as Hi. simpl in Hi.
    cbn [two_pair_loop].
    destruct (Z.eqb_spec top i); [lia |].
    destruct (Z.eqb_spec r1 i) as [-> | Hne]; cbn [negb].
    + left. split; [reflexivity |]. exists i. split; [lia |].
      rewrite count_rank_cons_if, !Z.eqb_refl.
      pose proof (count_rank_nonneg i rest). lia.
    + destruct (IH i Hd Hle' ltac:(lia)) as [[Hres (r2 & Hr2 & Hcount)] | [Hres Hnone]];
        rewrite Hres.
      * left. split; [reflexivity |]. exists r2. split; [lia |].
        rewrite count_rank_cons_if. destruct (r1 =? r2); lia.
      * right. split; [reflexivity |]. intros r2.
        rewrite count_rank_cons_if. specialize (Hnone r2).
        destruct (Z.eqb_spec r1 r2) as [<- | Hne2]; [| lia].
        destruct (Z.eqb_spec i r1); [lia |].
        rewrite (count_rank_below r1 i rest) by (assumption || lia). lia.
Qed.

(** The scan of the cards below the first one, while the second slot is
    still empty. *)
Lemma two_pair_loop_first_rank (top : Z) (rest : list card) :
  forall c0,
    rank_desc rest -> Forall (fun y => fst y <= top) rest ->
    (two_pair_loop rest (Some (top, c0)) None = Some (RTuple TWO_PAIR top) /\
     c0 + count_rank top rest = 2 /\
     exists r2, r2 < top /\ 2 <= count_rank r2 rest) \/
    (two_pair_loop rest (Some (top, c0)) None = None /\
     (c0 + count_rank top rest <> 2 \/
      forall r2, r2 < top -> count_rank r2 rest < 2)).
Proof.
  induction rest as [| [i j] rest IH]; intros c0 Hd Hle.
  - right. split; [reflexivity |]. right. intros r2 _. rewrite count_rank_nil. lia.
  - apply rank_desc_inv in Hd. destruct Hd as [Hd Hle']. simpl in Hle'.
    pose proof (Forall_inv Hle) as Hi. simpl in Hi.
    pose proof (Forall_inv_tail Hle) as Hrest.
    cbn [two_pair_loop].
    destruct (Z.eqb_spec top i) as [<- | Hne].
    + destruct (IH (c0 + 1) Hd Hrest) as [(Hres & Hc & r2 & Hr2 & Hcount) | [Hres Hnone]];
        rewrite Hres; [left | right]; (split; [reflexivity |]).
      * split; [rewrite count_rank_cons_if, Z.eqb_refl; lia |].
        exists r2. split; [exact Hr2 |].
        rewrite count_rank_cons_if. destruct (Z.eqb_spec top r2); lia.
      * destruct Hnone as [Hc | Hnone]; [left | right].
        -- rewrite count_rank_cons_if, Z.eqb_refl. lia.
        -- intros r2 Hr2. rewrite count_rank_cons_if.
           destruct (Z.eqb_spec top r2); [lia |]. simpl. apply Hnone. exact Hr2.
    + assert (Hbelow : Forall (fun y => fst y < top) rest).
      { eapply Forall_impl; [| exact Hle']. simpl. intros; lia. }
      assert (Htop : count_rank top ((i, j) :: rest) = 0).
      { apply (count_rank_below top i); [lia |]. constructor; [simpl; lia | exact Hle']. }
      rewrite Htop.
      destruct (Z.eq_dec c0 2) as [-> | Hc0].
      * destruct (two_pair_loop_second_pair top rest i Hd Hle' ltac:(lia))
          as [[Hres (r2 & Hr2 & Hcount)] | [Hres Hnone]];
          rewrite Hres; [left | right]; (split; [reflexivity |]).
        -- split; [lia |]. exists r2. split; [lia |].
           rewrite count_rank_cons_if. exact Hcount.
        -- right. intros r2 _. rewrite count_rank_cons_if. apply Hnone.
      * right. split; [| left; lia].
        apply two_pair_loop_first_not_pair; assumption.
Qed.

End TwoPairMore.

(** X12: on a hand sorted ascending by rank, two_pair answers exactly when
    the highest rank of the hand is held by exactly two cards and some lower
    rank by at least two; the answer is then (TWO_PAIR, highest rank).  In
    every other case, two pairs below a higher card included, it answers
    None. *)
Theorem two_pair_needs_top_pair (h : list card) (v : rankval) :
  rank_sorted h ->
  (two_pair h = Some v <->
   exists top,
     v = RTuple TWO_PAIR top /\
     Forall (fun y => fst y <= top) h /\
     count_rank top h = 2 /\
     exists r2, r2 < top /\ 2 <= count_rank r2 h).
Proof.
  intros Hs. apply rank_sorted_desc in Hs. unfold two_pair.
  assert (Hall : forall top, Forall (fun y => fst y <= top) h <->
                             Forall (fun y => fst y <= top) (rev h)).
  { intros top. split; intros H.
    - apply Forall_rev. exact H.
    - rewrite <- (rev_involutive h). apply Forall_rev. exact H. }
  setoid_rewrite Hall. setoid_rewrite <- (count_rank_rev _ h).
  destruct (rev h) as [| [i j] rest].
  - simpl. split; [discriminate |].
    intros (top & _ & _ & Hc & _). rewrite count_rank_nil in Hc. lia.
  - apply rank_desc_inv in Hs. destruct Hs as [Hd Hle]. simpl in Hle.
    cbn [two_pair_loop].
    destruct (two_pair_loop_first_rank i rest 1 Hd Hle)
      as [(Hres & Hc & r2 & Hr2 & Hcount) | [Hres Hnone]]; rewrite Hres.
    + split.
      * intros Hv. injection Hv as <-. exists i. split; [reflexivity |].
        split; [constructor; [simpl; lia | exact Hle] |].
        split; [rewrite count_rank_cons_if, Z.eqb_refl; lia |].
        exists r2. split; [exact Hr2 |].
        rewrite count_rank_cons_if. destruct (i =? r2); lia.
      * intros (top & -> & Hall' & Hc' & _). f_equal. f_equal.
        pose proof (Forall_inv Hall') as Hi. simpl in Hi.
        destruct (Z.eq_dec top i) as [-> | Hne]; [reflexivity |].
        rewrite (count_rank_below top i) in Hc'; [lia | lia |].
        constructor; [simpl; lia | exact Hle].
    + split; [discriminate |].
      intros (top & -> & Hall' & Hc' & r2 & Hr2 & Hcount).
      pose proof (Forall_inv Hall') as Hi. simpl in Hi.
      assert (top = i).
      { destruct (Z.eq_dec top i) as [-> | Hne]; [reflexivity |].
        rewrite (count_rank_below top i) in Hc'; [lia | lia |].
        constructor; [simpl; lia | exact Hle]. }
      subst top. rewrite count_rank_cons_if, Z.eqb_refl in Hc'.
      rewrite count_rank_cons_if in Hcount.
      destruct (Z.eqb_spec i r2); [lia |].
      destruct Hnone as [Hc | Hnone]; [lia |].
      specialize (Hnone r2 Hr2). lia.
Qed.

Lemma two_pair_needs_top_pair_witness :
  two_pair [(5, 1); (5, 2); (6, 1); (9, 0); (9, 3)] = Some (RTuple TWO_PAIR 9) <->
  exists top,
    RTuple TWO_PAIR 9 = RTuple TWO_PAIR top /\
    Forall (fun y => fst y <= top) [(5, 1); (5, 2); (6, 1); (9, 0); (9, 3)] /\
    count_rank top [(5, 1); (5, 2); (6, 1); (9, 0); (9, 3)] = 2 /\
    exists r2, r2 < top /\ 2 <= count_rank r2 [(5, 1); (5, 2); (6, 1); (9, 0); (9, 3)].
Proof.
  apply two_pair_needs_top_pair.
  unfold rank_sorted. repeat constructor; simpl; lia.
Defined.

(** ** flush *)
Section Flush.

Lemma count_suit_snoc (s i j : Z) (pre : list card) :
  count_suit s (pre ++ [(i, j)]) = count_suit s pre + (if j =? s then 1 else 0).
Proof.
  unfold count_suit. rewrite filter_app, length_app, Nat2Z.inj_add. simpl.
  destruct (j =? s); reflexivity.
Qed.

Lemma count_suit_app (s : Z) (l1 l2 : list card) :
  count_suit s (l1 ++ l2) = count_suit s l1 + count_suit s l2.
Proof.
  unfold count_suit. rewrite filter_app, length_app, Nat2Z.inj_add. reflexivity.
Qed.

Lemma count_suit_nonneg (s : Z) (l : list card) : 0 <= count_suit s l.
Proof. unfold count_suit. lia. Qed.

Lemma count_suit_In (r s : Z) (l : list card) : In (r, s) l -> 1 <= count_suit s l.
Proof.
  intros H. apply in_split in H. destruct H as (l1 & l2 & ->).
  change ((r, s) :: l2) with ([(r, s)] ++ l2).
  rewrite !count_suit_app.
  pose proof (count_suit_nonneg s l1). pose proof (count_suit_nonneg s l2).
  assert (Hone : count_suit s [(r, s)] = 1).
  { unfold count_suit. simpl. rewrite Z.eqb_refl. reflexivity. }
  lia.
Qed.

Lemma count_suit_rev (s : Z) (l : list card) : count_suit s (rev l) = count_suit s l.
Proof. unfold count_suit. rewrite filter_rev, length_rev. reflexivity. Qed.

Lemma count_suit_outside (s : Z) (l : list card) :
  Forall suit_ok l -> ~ 0 <= s <= 3 -> count_suit s l = 0.
Proof.
  intros Hl Hs. induction Hl as [| [i j] l Hj _ IH]; [reflexivity |].
  change ((i, j) :: l) with ([(i, j)] ++ l). rewrite count_suit_app, IH.
  unfold count_suit, suit_ok in *. simpl in *.
  destruct (Z.eqb_spec j s); [lia | reflexivity].
Qed.

(** A card of another suit leaves a slot as it is. *)
Lemma flush_slot_other (s i j : Z) (slot : option (Z * Z)) (pre rest : list card) :
  flush_slot_inv s slot pre ((i, j) :: rest) -> j <> s ->
  flush_slot_inv s slot (pre ++ [(i, j)]) rest.
Proof.
  intros Hinv Hne. destruct slot as [[highest count] |]; simpl in *.
  - destruct Hinv as (Hc & Hrange & Hin & Hmax & Hrest).
    rewrite count_suit_snoc. destruct (Z.eqb_spec j s); [contradiction |].
    repeat split; try lia.
    + apply in_or_app. left. exact Hin.
    + intros r Hr. apply in_app_or in Hr. destruct Hr as [Hr | [Hr | []]].
      * apply Hmax. exact Hr.
      * congruence.
    + apply (Forall_inv_tail Hrest).
  - rewrite count_suit_snoc. destruct (Z.eqb_spec j s); [contradiction | lia].
Qed.

(** The first card of a suit opens its slot. *)
Lemma flush_slot_open (i j : Z) (pre rest : list card) :
  flush_slot_inv j None pre ((i, j) :: rest) ->
  Forall (fun y => fst y <= i) rest ->
  flush_slot_inv j (Some (i, 1)) (pre ++ [(i, j)]) rest.
Proof.
  simpl. intros Hc Hrest. rewrite count_suit_snoc, Z.eqb_refl.
  repeat split; try lia.
  - apply in_or_app. right. left. reflexivity.
  - intros r Hr. apply in_app_or in Hr. destruct Hr as [Hr | [Hr | []]].
    + apply count_suit_In in Hr. lia.
    + injection Hr as ->. lia.
  - exact Hrest.
Qed.

(** One more card of the suit, short of five. *)
Lemma flush_slot_more (i j highest count : Z) (pre rest : list card) :
  flush_slot_inv j (Some (highest, count)) pre ((i, j) :: rest) ->
  count + 1 <> 5 ->
  flush_slot_inv j (Some (highest, count + 1)) (pre ++ [(i, j)]) rest.
Proof.
  simpl. intros (Hc & Hrange & Hin & Hmax & Hrest) Hnot.
  rewrite count_suit_snoc, Z.eqb_refl.
  pose proof (Forall_inv Hrest) as Hi. simpl in Hi.
  repeat split; try lia.
  - apply in_or_app. left. exact Hin.
  - intros r Hr. apply in_app_or in Hr. destruct Hr as [Hr | [Hr | []]].
    + apply Hmax. exact Hr.
    + injection Hr as ->. exact Hi.
  - apply (Forall_inv_tail Hrest).
Qed.

(** The fifth card of the suit. *)
Lemma flush_slot_full (i j highest count : Z) (pre rest : list card) :
  flush_slot_inv j (Some (highest, count)) pre ((i, j) :: rest) ->
  count + 1 = 5 ->
  5 <= count_suit j (pre ++ (i, j) :: rest) /\
  In (highest, j) (pre ++ (i, j) :: rest) /\
  forall r, In (r, j) (pre ++ (i, j) :: rest) -> r <= highest.
Proof.
  simpl. intros (Hc & Hrange & Hin & Hmax & Hrest) Hfull.
  split; [| split].
  - change ((i, j) :: rest) with ([(i, j)] ++ rest).
    rewrite app_assoc, count_suit_app, count_suit_snoc, Z.eqb_refl.
    pose proof (count_suit_nonneg j rest). lia.
  - apply in_or_app. left. exact Hin.
  - intros r Hr. apply in_app_or in Hr. destruct Hr as [Hr | Hr].
    + apply Hmax. exact Hr.
    + rewrite Forall_forall in Hrest. apply (Hrest (r, j)). exact Hr.
Qed.

Ltac flush_access :=
  repeat match goal with
    | |- context [list_get [?a; ?b; ?c; ?d] ?j] =>
        first
          [ rewrite (proj1 (list_get_four a b c d))
          | rewrite (proj1 (proj2 (list_get_four a b c d)))
          | rewrite (proj1 (proj2 (proj2 (list_get_four a b c d))))
          | rewrite (proj2 (proj2 (proj2 (list_get_four a b c d)))) ]
    | |- context [list_set [?a; ?b; ?c; ?d] ?j ?v] =>
        first
          [ rewrite (proj1 (list_set_four a b c d v))
          | rewrite (proj1 (proj2 (list_set_four a b c d v)))
          | rewrite (proj1 (proj2 (proj2 (list_set_four a b c d v))))
          | rewrite (proj2 (proj2 (proj2 (list_set_four a b c d v)))) ]
    end;
  cbn [bind].

(** The slots of the other suits after a card of suit [j]. *)
Ltac flush_others :=
  repeat match goal with
    | |- _ /\ _ => split
    | H : flush_slot_inv ?s ?slot ?pre (_ :: ?rest)
      |- flush_slot_inv ?s ?slot (?pre ++ _) ?rest =>
        apply flush_slot_other; [exact H | lia]
    end.

Lemma flush_loop_post (rest : list card) :
  forall pre a b c d l,
    rank_desc rest -> Forall suit_ok rest -> l = pre ++ rest ->
    flush_slot_inv 0 a pre rest /\ flush_slot_inv 1 b pre rest /\
    flush_slot_inv 2 c pre rest /\ flush_slot_inv 3 d pre rest ->
    flush_post l (flush_loop rest [a; b; c; d]).
Proof.
  induction rest as [| [i j] rest IH];
    intros pre a b c d l Hd Hs Hl (Ha & Hb & Hc & Hdd).
  - left. split; [reflexivity |]. rewrite Hl, app_nil_r. intros s Hrange.
    assert (Hcase : s = 0 \/ s = 1 \/ s = 2 \/ s = 3) by lia.
    destruct Hcase as [-> | [-> | [-> | ->]]];
      match goal with
      | H : flush_slot_inv ?s ?slot pre [] |- count_suit ?s pre < 5 =>
          destruct slot as [[? ?] |]; simpl in H; lia
      end.
  - apply rank_desc_inv in Hd. destruct Hd as [Hd Hle]. simpl in Hle.
    pose proof (Forall_inv Hs) as Hj. pose proof (Forall_inv_tail Hs) as Hs'.
    assert (Hl' : l = (pre ++ [(i, j)]) ++ rest)
      by (rewrite <- app_assoc; exact Hl).
    apply suit_cases in Hj. simpl in Hj.
    destruct Hj as [-> | [-> | [-> | ->]]]; cbn [flush_loop]; flush_access;
      match goal with
      | |- context [match ?s with Some _ => _ | None => _ end] =>
          destruct s as [[highest count] |]
      end;
      flush_access;
      try (eapply (IH (pre ++ [_])); [exact Hd | exact Hs' | exact Hl' |];
           flush_others; apply flush_slot_open; assumption);
      match goal with
      | H : flush_slot_inv ?s (Some (?hi, ?cnt)) pre _ |- _ =>
          destruct (Z.eqb_spec (cnt + 1) 5) as [Hfull | Hnot];
          [ right; exists s, hi; split; [reflexivity |];
            rewrite Hl; apply (flush_slot_full i s hi cnt pre rest H Hfull)
          | eapply (IH (pre ++ [_])); [exact Hd | exact Hs' | exact Hl' |];
            flush_others; apply flush_slot_more; assumption ]
      end.
Qed.

End Flush.

(** X13: on a hand sorted ascending by rank whose suits are numbered 0 to 3,
    flush never raises; it answers None exactly when no suit holds five
    cards, and otherwise (FLUSH, t) for a suit that holds at least five
    cards, t being the highest rank of that suit. *)
Theorem flush_five_of_a_suit (h : list card) :
  rank_sorted h -> Forall suit_ok h ->
  (flush h = Ok None <-> forall s, count_suit s h < 5) /\
  (forall v, flush h = Ok (Some v) ->
             exists s t, v = RTuple FLUSH t /\ 5 <= count_suit s h /\
                         In (t, s) h /\ forall r, In (r, s) h -> r <= t) /\
  (exists v, flush h = Ok v).
Proof.
  intros Hs Hsuit.
  assert (H : flush_post (rev h) (flush h)).
  { unfold flush. apply (flush_loop_post (rev h) [] None None None None).
    - apply rank_sorted_desc; exact Hs.
    - apply Forall_rev; exact Hsuit.
    - reflexivity.
    - simpl. auto. }
  destruct H as [[Hres Hnone] | (s & t & Hres & Hfive & Hin & Hmax)]; rewrite Hres.
  - split; [| split; [discriminate | eauto]].
    split; [| reflexivity]. intros _ s.
    destruct (Z_le_dec 0 s) as [H0 |]; [destruct (Z_le_dec s 3) as [H3 |] |].
    + rewrite <- count_suit_rev. apply Hnone. lia.
    + rewrite count_suit_outside; [lia | exact Hsuit | lia].
    + rewrite count_suit_outside; [lia | exact Hsuit | lia].
  - split; [| split; [| eauto]].
    + split; [discriminate |]. intros Hnone. specialize (Hnone s).
      rewrite count_suit_rev in Hfive. lia.
    + intros v Hv. injection Hv as <-. exists s, t. split; [reflexivity |].
      split; [rewrite <- count_suit_rev; exact Hfive |].
      split; [apply in_rev; exact Hin |].
      intros r Hr. apply Hmax. apply in_rev in Hr. exact Hr.
Qed.

Lemma flush_five_of_a_suit_witness :
  (flush [(2, 0); (3, 0); (4, 0); (5, 0); (9, 0)] = Ok None <->
   forall s, count_suit s [(2, 0); (3, 0); (4, 0); (5, 0); (9, 0)] < 5) /\
  (forall v, flush [(2, 0); (3, 0); (4, 0); (5, 0); (9, 0)] = Ok (Some v) ->
             exists s t, v = RTuple FLUSH t /\
                         5 <= count_suit s [(2, 0); (3, 0); (4, 0); (5, 0); (9, 0)] /\
                         In (t, s) [(2, 0); (3, 0); (4, 0); (5, 0); (9, 0)] /\
                         forall r, In (r, s) [(2, 0); (3, 0); (4, 0); (5, 0); (9, 0)] ->
                                   r <= t) /\
  (exists v, flush [(2, 0); (3, 0); (4, 0); (5, 0); (9, 0)] = Ok v).
Proof.
  apply flush_five_of_a_suit.
  - unfold rank_sorted. repeat constructor; simpl; lia.
  - unfold suit_ok. repeat constructor; simpl; lia.
Defined.

(** ** straight_flush: a straight within one suit *)
Section StraightFlush.

Ltac sf_access :=
  repeat match goal with
    | |- context [list_get [?a; ?b; ?c; ?d] ?j] =>
        first
          [ rewrite (proj1 (list_get_four a b c d))
          | rewrite (proj1 (proj2 (list_get_four a b c d)))
          | rewrite (proj1 (proj2 (proj2 (list_get_four a b c d))))
          | rewrite (proj2 (proj2 (proj2 (list_get_four a b c d)))) ]
    | |- context [list_set [?a; ?b; ?c; ?d] ?j ?v] =>
        first
          [ rewrite (proj1 (list_set_four a b c d v))
          | rewrite (proj1 (proj2 (list_set_four a b c d v)))
          | rewrite (proj1 (proj2 (proj2 (list_set_four a b c d v))))
          | rewrite (proj2 (proj2 (proj2 (list_set_four a b c d v)))) ]
    end;
  cbn [bind].

Lemma straight_loop_step (i j : Z) (rest : list card) (streak : option (Z * Z)) :
  straight_loop ((i, j) :: rest) streak =
  match window_step streak i with
  | inr t => Some (RTuple STRAIGHT t)
  | inl streak' => straight_loop rest streak'
  end.
Proof.
  destruct streak as [[first last] |]; cbn [straight_loop window_step]; [| reflexivity].
  destruct (Z.ltb_spec (i + 1) last); [reflexivity |].
  destruct (Z.eqb_spec last i), (Z.eqb_spec last (i + 1)); try reflexivity; try lia.
  destruct (first - i =? 4); reflexivity.
Qed.

Lemma straight_flush_loop_step (i : Z) (rest : list card) (a b c d : option (Z * Z)) :
  (straight_flush_loop ((i, 0) :: rest) [a; b; c; d] =
   match window_step a i with
   | inr t => Ok (Some (RTuple STRAIGHT_FL t))
   | inl a' => straight_flush_loop rest [a'; b; c; d]
   end) /\
  (straight_flush_loop ((i, 1) :: rest) [a; b; c; d] =
   match window_step b i with
   | inr t => Ok (Some (RTuple STRAIGHT_FL t))
   | inl b' => straight_flush_loop rest [a; b'; c; d]
   end) /\
  (straight_flush_loop ((i, 2) :: rest) [a; b; c; d] =
   match window_step c i with
   | inr t => Ok (Some (RTuple STRAIGHT_FL t))
   | inl c' => straight_flush_loop rest [a; b; c'; d]
   end) /\
  (straight_flush_loop ((i, 3) :: rest) [a; b; c; d] =
   match window_step d i with
   | inr t => Ok (Some (RTuple STRAIGHT_FL t))
   | inl d' => straight_flush_loop rest [a; b; c; d']
   end).
Proof.
  repeat split; cbn [straight_flush_loop window_step]; sf_access;
    match goal with
    | |- context [match ?s with Some _ => _ | None => _ end] =>
        destruct s as [[first last] |]
    end;
    cbn [window_step]; sf_access; try reflexivity;
    destruct (i + 1 <? last); sf_access; try reflexivity;
    destruct (last =? i + 1); sf_access; try reflexivity;
    destruct (first - i =? 4); reflexivity.
Qed.

Lemma suit_cards_cons_same (i s : Z) (l : list card) :
  suit_cards s ((i, s) :: l) = (i, s) :: suit_cards s l.
Proof. unfold suit_cards. simpl. rewrite Z.eqb_refl. reflexivity. Qed.

Lemma suit_cards_cons_other (i j s : Z) (l : list card) :
  j <> s -> suit_cards s ((i, j) :: l) = suit_cards s l.
Proof.
  intros H. unfold suit_cards. simpl.
  destruct (Z.eqb_spec j s); [contradiction | reflexivity].
Qed.

Lemma straight_flush_loop_suitwise (cards : list card) :
  forall a b c d,
    Forall suit_ok cards ->
    suitwise cards a b c d (straight_flush_loop cards [a; b; c; d]).
Proof.
  induction cards as [| [i j] rest IH]; intros a b c d Hs.
  - simpl. auto.
  - pose proof (Forall_inv Hs) as Hj. pose proof (Forall_inv_tail Hs) as Hrest.
    apply suit_cases in Hj. simpl in Hj.
    pose proof (straight_flush_loop_step i rest a b c d) as (E0 & E1 & E2 & E3).
    destruct Hj as [-> | [-> | [-> | ->]]];
      [rewrite E0 | rewrite E1 | rewrite E2 | rewrite E3];
      unfold suitwise;
      rewrite suit_cards_cons_same, !suit_cards_cons_other by lia;
      rewrite straight_loop_step;
      match goal with
      | |- context [window_step ?s i] => destruct (window_step s i) as [s' | t]
      end;
      try (eexists; split; [reflexivity |]; tauto);
      match goal with
      | |- context [straight_flush_loop rest [?a'; ?b'; ?c'; ?d']] =>
          apply (IH a' b' c' d' Hrest)
      end.
Qed.

Lemma rank_desc_suit_cards (s : Z) (l : list card) :
  rank_desc l -> rank_desc (suit_cards s l).
Proof.
  induction 1 as [| c l Hl IH Hc]; simpl.
  - constructor.
  - destruct (snd c =? s); [| exact IH].
    constructor; [exact IH |].
    rewrite Forall_forall in *. intros y Hy.
    apply Hc. apply (incl_filter _ _ _ Hy).
Qed.

Lemma suit_cards_rev (s : Z) (l : list card) :
  suit_cards s (rev l) = rev (suit_cards s l).
Proof. apply filter_rev. Qed.

Lemma suit_cards_outside (s : Z) (l : list card) :
  Forall suit_ok l -> ~ 0 <= s <= 3 -> suit_cards s l = [].
Proof.
  intros Hl Hs. induction Hl as [| [i j] l Hj _ IH]; [reflexivity |].
  unfold suit_ok in Hj. simpl in *.
  destruct (Z.eqb_spec j s); [lia | exact IH].
Qed.

Lemma no_run_nil : forall t, ~ run_of_five [] t.
Proof. intros t H. apply (H t). lia. Qed.

(** straight on the cards of one suit of a sorted hand. *)
Lemma straight_suit_post (s : Z) (h : list card) :
  rank_sorted h ->
  straight_post (suit_cards s h) (straight_loop (suit_cards s (rev h)) None).
Proof.
  intros Hs.
  assert (H : straight_post (suit_cards s (rev h))
                (straight_loop (suit_cards s (rev h)) None)).
  { apply (straight_loop_post (suit_cards s (rev h)) [] None).
    - apply rank_desc_suit_cards, rank_sorted_desc, Hs.
    - reflexivity.
    - split; [apply no_run_nil | reflexivity]. }
  rewrite suit_cards_rev in H at 1.
  destruct H as [[Hres Hno] | (t & Hres & Hrun & Hmax)]; [left | right].
  - split; [exact Hres |]. intros t Hrun. apply (Hno t).
    apply run_of_five_rev. exact Hrun.
  - exists t. split; [exact Hres |]. split; [apply run_of_five_rev; exact Hrun |].
    intros t' Ht'. apply Hmax. apply run_of_five_rev. exact Ht'.
Qed.

(** The loop of straight_flush on a sorted hand. *)
Lemma straight_flush_loop_sorted (h : list card) :
  rank_sorted h -> Forall suit_ok h ->
  (straight_flush_loop (rev h) [None; None; None; None] = Ok None /\
   forall s t, ~ run_of_five (suit_cards s h) t) \/
  (exists s t,
      straight_flush_loop (rev h) [None; None; None; None]
        = Ok (Some (RTuple STRAIGHT_FL t)) /\
      highest_suited_run h s t).
Proof.
  intros Hs Hsuit.
  pose proof (straight_flush_loop_suitwise (rev h) None None None None
                (Forall_rev Hsuit)) as H.
  pose proof (straight_suit_post 0 h Hs) as H0.
  pose proof (straight_suit_post 1 h Hs) as H1.
  pose proof (straight_suit_post 2 h Hs) as H2.
  pose proof (straight_suit_post 3 h Hs) as H3.
  destruct (straight_flush_loop (rev h) [None; None; None; None]) as [[v |] |];
    cbn [suitwise] in H; [| | contradiction].
  - right. destruct H as (t & -> & Hcase).
    destruct Hcase as [Hc | [Hc | [Hc | Hc]]];
      [exists 0, t | exists 1, t | exists 2, t | exists 3, t];
      (split; [reflexivity |]);
      match goal with
      | Hp : straight_post (suit_cards ?s h) _ |- highest_suited_run h ?s t =>
          rewrite Hc in Hp;
          destruct Hp as [[Hres _] | (t' & Hres & Hrun & Hmax)];
          [discriminate | injection Hres as ->; split; assumption]
      end.
  - left. split; [reflexivity |]. destruct H as (E0 & E1 & E2 & E3).
    rewrite E0 in H0. rewrite E1 in H1. rewrite E2 in H2. rewrite E3 in H3.
    intros s t.
    assert (Hcase : s = 0 \/ s = 1 \/ s = 2 \/ s = 3 \/ ~ 0 <= s <= 3) by lia.
    destruct Hcase as [-> | [-> | [-> | [-> | Hout]]]];
      try match goal with
        | Hp : straight_post (suit_cards ?s h) None |- ~ run_of_five (suit_cards ?s h) t =>
            destruct Hp as [[_ Hno] | (t' & Hres & _)]; [apply Hno | discriminate]
        end.
    rewrite (suit_cards_outside s h Hsuit Hout). apply no_run_nil.
Qed.

End StraightFlush.

(** X14: on a hand sorted ascending by rank whose suits are numbered 0 to 3,
    straight_flush never raises; it answers None exactly when no suit holds
    five consecutive ranks; otherwise it answers for a suit s that does, with
    t the top of the highest such run in s: the tuple (STRAIGHT_FL, t) when
    t is not the ace, the bare integer ROYAL_FL when t is 14. *)
Theorem straight_flush_suited_run (h : list card) :
  rank_sorted h -> Forall suit_ok h ->
  (straight_flush h = Ok None /\ forall s t, ~ run_of_five (suit_cards s h) t) \/
  (exists s t,
      highest_suited_run h s t /\
      ((t <> 14 /\ straight_flush h = Ok (Some (RTuple STRAIGHT_FL t))) \/
       (t = 14 /\ straight_flush h = Ok (Some (RInt ROYAL_FL))))).
Proof.
  intros Hs Hsuit. unfold straight_flush.
  destruct (straight_flush_loop_sorted h Hs Hsuit)
    as [[Hres Hno] | (s & t & Hres & Hrun)]; rewrite Hres; cbn [bind].
  - left. split; [reflexivity | exact Hno].
  - right. exists s, t. split; [exact Hrun |]. unfold card_ranks_A.
    destruct (Z.eqb_spec t 14); [right | left]; split; auto.
Qed.

Lemma straight_flush_suited_run_witness :
  (straight_flush [(10, 3); (11, 3); (12, 3); (13, 3); (14, 3)] = Ok None /\
   forall s t,
     ~ run_of_five (suit_cards s [(10, 3); (11, 3); (12, 3); (13, 3); (14, 3)]) t) \/
  (exists s t,
      highest_suited_run [(10, 3); (11, 3); (12, 3); (13, 3); (14, 3)] s t /\
      ((t <> 14 /\
        straight_flush [(10, 3); (11, 3); (12, 3); (13, 3); (14, 3)]
          = Ok (Some (RTuple STRAIGHT_FL t))) \/
       (t = 14 /\
        straight_flush [(10, 3); (11, 3); (12, 3); (13, 3); (14, 3)]
          = Ok (Some (RInt ROYAL_FL))))).
Proof.
  apply straight_flush_suited_run.
  - unfold rank_sorted. repeat constructor; simpl; lia.
  - unfold suit_ok. repeat constructor; simpl; lia.
Defined.

(** ** hand_rank: the category answered is in the cards *)
Section Categories.

Lemma straight_flush_sorted_sound (l : list card) (c t : Z) :
  rank_sorted l -> Forall suit_ok l ->
  straight_flush l = Ok (Some (RTuple c t)) ->
  c = STRAIGHT_FL /\ exists s, run_of_five (suit_cards s l) t.
Proof.
  intros Hs Hsuit. unfold straight_flush.
  destruct (straight_flush_loop_sorted l Hs Hsuit)
    as [[Hres _] | (s & t' & Hres & Hrun & _)]; rewrite Hres; cbn [bind].
  - discriminate.
  - destruct (t' =? card_ranks_A); [discriminate |].
    intros H. injection H as <- <-. split; [reflexivity | eauto].
Qed.

Lemma of_kind_sorted_sound (h : list card) (num c t : Z) :
  rank_sorted h -> In num [2; 3; 4] ->
  of_kind h num = Ok (Some (RTuple c t)) ->
  In (num, c) kind_to_rank /\ num <= count_rank t h.
Proof.
  intros Hs Hnum.
  assert (H2 : 2 <= num) by (simpl in Hnum; lia).
  destruct (of_kind_sorted_post num h H2 Hs) as [[Hres _] | (r & Hres & Hr & _)];
    rewrite Hres; [discriminate |].
  simpl in Hnum. destruct Hnum as [<- | [<- | [<- | []]]]; cbn [bind];
    intros H; injection H as <- <-; simpl; auto.
Qed.

Lemma full_house_sorted_sound (h : list card) (c t : Z) :
  rank_sorted h -> full_house h = Some (RTuple c t) ->
  c = FULL_H /\
  exists r2, r2 < t /\
             ((count_rank t h = 3 /\ 2 <= count_rank r2 h) \/
              (count_rank t h = 2 /\ 3 <= count_rank r2 h)).
Proof.
  intros Hs Hv. unfold full_house in Hv.
  apply (full_house_loop_post (rev h) [] None None _ (rev h)) in Hv.
  - destruct Hv as (t' & r2 & Hv & Hlt & Hc). injection Hv as -> ->.
    rewrite !count_rank_rev in Hc. split; [reflexivity | eauto].
  - apply rank_sorted_desc; exact Hs.
  - reflexivity.
  - reflexivity.
Qed.

Lemma flush_sorted_sound (h : list card) (c t : Z) :
  rank_sorted h -> Forall suit_ok h ->
  flush h = Ok (Some (RTuple c t)) ->
  c = FLUSH /\ exists s, 5 <= count_suit s h /\ In (t, s) h.
Proof.
  intros Hs Hsuit.
  assert (H : flush_post (rev h) (flush h)).
  { unfold flush. apply (flush_loop_post (rev h) [] None None None None).
    - apply rank_sorted_desc; exact Hs.
    - apply Forall_rev; exact Hsuit.
    - reflexivity.
    - simpl. auto. }
  destruct H as [[Hres _] | (s & t' & Hres & Hfive & Hin & _)]; rewrite Hres;
    [discriminate |].
  intros H. injection H as <- <-. split; [reflexivity |]. exists s.
  split; [rewrite <- count_suit_rev; exact Hfive | apply in_rev; exact Hin].
Qed.

Lemma straight_sorted_sound (l : list card) (c t : Z) :
  rank_sorted l -> straight l = Some (RTuple c t) ->
  c = STRAIGHT /\ run_of_five l t.
Proof.
  intros Hs.
  assert (H : straight_post (rev l) (straight l)).
  { unfold straight. apply (straight_loop_post (rev l) [] None).
    - apply rank_sorted_desc; exact Hs.
    - reflexivity.
    - split; [apply no_run_nil | reflexivity]. }
  destruct H as [[Hres _] | (t' & Hres & Hrun & _)]; rewrite Hres; [discriminate |].
  intros H. injection H as <- <-. split; [reflexivity |].
  apply run_of_five_rev. exact Hrun.
Qed.

Lemma two_pair_sorted_sound (h : list card) (c t : Z) :
  rank_sorted h -> two_pair h = Some (RTuple c t) ->
  c = TWO_PAIR /\ count_rank t h = 2 /\
  exists r2, r2 < t /\ 2 <= count_rank r2 h.
Proof.
  intros Hs. apply rank_sorted_desc in Hs. unfold two_pair.
  setoid_rewrite <- (count_rank_rev _ h).
  destruct (rev h) as [| [i j] rest]; [discriminate |].
  apply rank_desc_inv in Hs. destruct Hs as [Hd Hle]. simpl in Hle.
  cbn [two_pair_loop].
  destruct (two_pair_loop_first_rank i rest 1 Hd Hle)
    as [(Hres & Hc & r2 & Hr2 & Hcount) | [Hres _]]; rewrite Hres; [| discriminate].
  intros H. injection H as <- <-. split; [reflexivity |].
  split; [rewrite count_rank_cons_if, Z.eqb_refl; lia |].
  exists r2. split; [exact Hr2 |].
  rewrite count_rank_cons_if. destruct (i =? r2); lia.
Qed.

Lemma high_card_sorted_sound (h : list card) (c t : Z) :
  rank_sorted h -> high_card h = Some (RTuple c t) ->
  c = HIGH_CARD /\ holds_rank h t /\ Forall (fun y => t <= fst y) h.
Proof.
  intros Hs. destruct h as [| x h]; simpl; [discriminate |].
  intros H. injection H as <- <-. inversion Hs; subst.
  split; [reflexivity |]. split; [left; reflexivity |].
  constructor; [lia | assumption].
Qed.

End Categories.

(** X15: whatever tuple hand_rank answers for a parsed hand is justified by
    the cards: a straight flush or a straight by five consecutive ranks (of
    one suit, or of any suits) in the ace-duplicated hand, four, three or two
    of a kind by that many cards of the rank answered, a full house by a
    triple and a pair of which the higher rank is answered, a flush by five
    cards of one suit among which the rank answered, two pairs by a pair of
    the rank answered and a lower pair, and a high card by the lowest rank of
    the hand. *)
Theorem hand_rank_category_justified (hand : list string) (h : list card) (c t : Z) :
  scrub_hand hand = Ok h ->
  hand_rank hand = Ok (Some (RTuple c t)) ->
  category_justified h c t.
Proof.
  intros Hscrub. unfold hand_rank. rewrite Hscrub. cbn [bind if_none].
  destruct (scrub_hand_sorted hand h Hscrub) as [Htuple Hs].
  assert (Hsuit : Forall suit_ok h).
  { eapply Forall_impl; [| apply (scrub_hand_suits hand h Hscrub)].
    intros x [Hx _]. exact Hx. }
  assert (Hs' : rank_sorted (low_aces h)).
  { apply tuple_sorted_rank_sorted. apply (low_aces_sorted_perm h Htuple). }
  assert (Hsuit' : Forall suit_ok (low_aces h)).
  { apply low_aces_Forall; [| exact Hsuit].
    intros x Hx. rewrite Forall_forall in Hsuit. apply (Hsuit x Hx). }
  unfold category_justified.
  destruct (straight_flush (low_aces h)) as [[v |] | e] eqn:E1;
    cbn [bind if_none]; try discriminate.
  { intros H. injection H as ->.
    destruct (straight_flush_sorted_sound _ c t Hs' Hsuit' E1) as [-> Hrun]. auto. }
  destruct (of_kind h 4) as [[v |] | e] eqn:E2; cbn [bind if_none]; try discriminate.
  { intros H. injection H as ->.
    destruct (of_kind_sorted_sound h 4 c t Hs ltac:(simpl; auto) E2) as [Hin Hc].
    simpl in Hin. destruct Hin as [Hin | [Hin | [Hin | []]]]; inversion Hin. auto. }
  destruct (full_house h) as [v |] eqn:E3; cbn [bind if_none].
  { intros H. injection H as ->.
    destruct (full_house_sorted_sound h c t Hs E3) as [-> Hc]. auto 6. }
  destruct (flush h) as [[v |] | e] eqn:E4; cbn [bind if_none]; try discriminate.
  { intros H. injection H as ->.
    destruct (flush_sorted_sound h c t Hs Hsuit E4) as [-> Hc]. auto 6. }
  destruct (straight (low_aces h)) as [v |] eqn:E5; cbn [bind if_none].
  { intros H. injection H as ->.
    destruct (straight_sorted_sound _ c t Hs' E5) as [-> Hrun]. auto 7. }
  destruct (of_kind h 3) as [[v |] | e] eqn:E6; cbn [bind if_none]; try discriminate.
  { intros H. injection H as ->.
    destruct (of_kind_sorted_sound h 3 c t Hs ltac:(simpl; auto) E6) as [Hin Hc].
    simpl in Hin. destruct Hin as [Hin | [Hin | [Hin | []]]]; inversion Hin. auto 8. }
  destruct (two_pair h) as [v |] eqn:E7; cbn [bind if_none].
  { intros H. injection H as ->.
    destruct (two_pair_sorted_sound h c t Hs E7) as [-> Hc]. auto 9. }
  destruct (of_kind h 2) as [[v |] | e] eqn:E8; cbn [bind if_none]; try discriminate.
  { intros H. injection H as ->.
    destruct (of_kind_sorted_sound h 2 c t Hs ltac:(simpl; auto) E8) as [Hin Hc].
    simpl in Hin. destruct Hin as [Hin | [Hin | [Hin | []]]]; inversion Hin. auto 10. }
  destruct (high_card h) as [v |] eqn:E9; cbn [bind if_none]; [| discriminate].
  intros H. injection H as ->.
  destruct (high_card_sorted_sound h c t Hs E9) as [-> Hc]. auto 10.
Qed.

Lemma hand_rank_category_justified_witness :
  category_justified [(7, 2); (9, 0); (9, 1); (9, 2); (9, 3)] 7 9.
Proof.
  apply (hand_rank_category_justified Hands.fk); reflexivity.
Defined.

(** ** full_house: what it finds and what it misses *)
Section FullHouseMore.

Lemma holds_rank_count (l : list card) (r : Z) :
  holds_rank l r -> 1 <= count_rank r l.
Proof.
  unfold holds_rank. induction l as [| [i j] l IH]; simpl; [contradiction |].
  rewrite count_rank_cons_if. pose proof (count_rank_nonneg r l) as Hpos.
  intros [-> | Hin].
  - rewrite Z.eqb_refl. lia.
  - specialize (IH Hin). destruct (i =? r); lia.
Qed.

Lemma holds_rank_all_equal (l : list card) (r0 r : Z) :
  Forall (fun y => fst y = r0) l -> holds_rank l r -> r = r0.
Proof.
  intros Hl Hr. unfold holds_rank in Hr. apply in_map_iff in Hr.
  destruct Hr as (c & <- & Hc). rewrite Forall_forall in Hl. apply Hl. exact Hc.
Qed.

(** Cards of lower ranks change nothing to a pair of ranks above them. *)
Lemma full_pair_stable (pre ext : list card) (m a b : Z) :
  Forall (fun y => fst y <= m) ext -> m < b ->
  full_pair (pre ++ ext) a b -> full_pair pre a b.
Proof.
  intros Hext Hm [(Hlt & Ha & Hb & Hgap) Hcount].
  assert (Hold : forall r, m < r -> holds_rank (pre ++ ext) r -> holds_rank pre r).
  { intros r Hr H. apply holds_rank_app in H. destruct H as [H | H]; [exact H |].
    apply (holds_rank_le m) in H; [lia | exact Hext]. }
  rewrite !count_rank_app in Hcount.
  rewrite (count_rank_below a m ext), (count_rank_below b m ext) in Hcount
    by (assumption || lia).
  split; [| lia]. repeat split.
  - exact Hlt.
  - apply Hold; [lia | exact Ha].
  - apply Hold; [lia | exact Hb].
  - intros r Hr H. apply (Hgap r Hr). apply holds_rank_app. left. exact H.
Qed.

(** The two slots are the only pair of ranks still open: when they do not
    make a full house, nothing scanned so far does. *)
Lemma no_full_pair_scanned (pre : list card) (r0 r1 : Z) :
  r1 < r0 ->
  holds_rank pre r0 ->
  (forall r, r1 < r < r0 -> ~ holds_rank pre r) ->
  Forall (fun y => r1 <= fst y) pre ->
  ~ ((count_rank r0 pre = 2 /\ 3 <= count_rank r1 pre) \/
     (count_rank r0 pre = 3 /\ 2 <= count_rank r1 pre)) ->
  (forall a b, r1 < b -> ~ full_pair pre a b) ->
  forall a b, ~ full_pair pre a b.
Proof.
  intros Hlt H0 Hgap Hpre Hnot Habove a b Hpair.
  destruct (Z_lt_le_dec r1 b) as [Hb | Hb]; [apply (Habove a b Hb Hpair) |].
  destruct Hpair as [(Hba & Ha & Hbheld & Hgap') Hcount].
  assert (b = r1) by (apply (holds_rank_ge r1) in Hbheld; [lia | exact Hpre]).
  subst b.
  assert (a = r0).
  { destruct (Z.lt_trichotomy a r0) as [Hlow | [Heq | Hhigh]]; [| exact Heq |].
    - exfalso. apply (Hgap a); [lia | exact Ha].
    - exfalso. apply (Hgap' r0); [lia | exact H0]. }
  subst a. apply Hnot. exact Hcount.
Qed.

Lemma full_house_loop_scan (rest : list card) :
  forall pre s0 s1 l,
    rank_desc rest -> l = pre ++ rest -> full_house_scan_inv pre rest s0 s1 ->
    full_house_scan_post l (full_house_loop rest s0 s1).
Proof.
  induction rest as [| [i j] rest IH]; intros pre s0 s1 l Hd Hl Hinv.
  - left. split; [reflexivity |]. rewrite Hl, app_nil_r.
    destruct s0 as [[r0 c0] |], s1 as [[r1 c1] |]; simpl in Hinv.
    + destruct Hinv as (Hlt & -> & -> & H0 & H1 & Hgap & Hpre & _ & Hnot & Habove).
      apply (no_full_pair_scanned pre r0 r1); assumption.
    + destruct Hinv as (_ & _ & Hall & _).
      intros a b [(Hba & Ha & Hb & _) _].
      apply (holds_rank_all_equal pre r0) in Ha, Hb; [lia | exact Hall | exact Hall].
    + contradiction.
    + subst pre. intros a b [(_ & Ha & _) _]. exact Ha.
  - apply rank_desc_inv in Hd. destruct Hd as [Hd Hle]. simpl in Hle.
    assert (Hl' : l = (pre ++ [(i, j)]) ++ rest)
      by (rewrite <- app_assoc; exact Hl).
    cbn [full_house_loop].
    destruct s0 as [[r0 c0] |].
    + destruct (Z.eqb_spec r0 i) as [-> | Hne].
      * destruct s1 as [[r1 c1] |]; simpl in Hinv.
        -- destruct Hinv as (Hlt & _ & _ & _ & _ & _ & _ & Hrest & _).
           pose proof (Forall_inv Hrest) as Hi. simpl in Hi. lia.
        -- destruct Hinv as (Hc0 & H0 & Hall & Hrest).
           apply (IH (pre ++ [(i, j)])); [exact Hd | exact Hl' |]. simpl.
           repeat split.
           ++ rewrite count_rank_snoc, Z.eqb_refl. lia.
           ++ apply holds_rank_snoc. right. reflexivity.
           ++ apply Forall_app. split; [exact Hall | repeat constructor].
           ++ exact Hle.
      * destruct s1 as [[r1 c1] |]; simpl in Hinv.
        -- destruct Hinv as (Hlt & Hc0 & Hc1 & H0 & H1 & Hgap & Hpre & Hrest & Hnot & Habove).
           pose proof (Forall_inv Hrest) as Hi. simpl in Hi.
           pose proof (holds_rank_count pre r1 H1) as Hone.
           destruct (Z.eqb_spec r1 i) as [-> | Hne1]; cbn [negb].
           ++ destruct (full_counts c0 (c1 + 1)) eqn:Hfc.
              ** (* the lower rank completes the five cards *)
                 right. exists r0, i. split; [reflexivity |].
                 apply full_counts_cases in Hfc.
                 assert (Hc0' : count_rank r0 l = c0).
                 { rewrite Hl', !count_rank_app, count_rank_one_ne by lia.
                   rewrite (count_rank_below r0 i rest) by assumption. lia. }
                 assert (Hc1' : c1 + 1 <= count_rank i l).
                 { rewrite Hl', count_rank_app, count_rank_snoc, Z.eqb_refl.
                   pose proof (count_rank_nonneg i rest). lia. }
                 split.
                 --- split; [| lia]. rewrite Hl'. repeat split.
                     +++ exact Hlt.
                     +++ apply holds_rank_app. left. apply holds_rank_snoc. auto.
                     +++ apply holds_rank_app. left. apply holds_rank_snoc. auto.
                     +++ intros r Hr H. apply holds_rank_app in H.
                         destruct H as [H | H].
                         *** apply holds_rank_snoc in H.
                             destruct H as [H | H]; [apply (Hgap r Hr H) | lia].
                         *** apply (holds_rank_le i) in H; [lia | exact Hle].
                 --- intros a' b' Hpair.
                     destruct (Z_le_gt_dec a' r0) as [Hok | Hhigh]; [exact Hok |].
                     exfalso.
                     assert (Hb' : i < b').
                     { destruct Hpair as [(Hba & _ & _ & Hgap') _].
                       destruct (Z_lt_le_dec b' r0) as [Hlow |]; [| lia].
                       exfalso. apply (Hgap' r0); [lia |].
                       rewrite Hl. apply holds_rank_app. left. exact H0. }
                     rewrite Hl in Hpair.
                     apply (full_pair_stable pre _ i) in Hpair;
                       [| constructor; [simpl; lia | exact Hle] | exact Hb'].
                     apply (Habove a' b' Hb' Hpair).
              ** apply (IH (pre ++ [(i, j)])); [exact Hd | exact Hl' |]. simpl.
                 unfold full_counts in Hfc.
                 repeat split; try assumption.
                 --- rewrite count_rank_snoc. destruct (Z.eqb_spec i r0); lia.
                 --- rewrite count_rank_snoc, Z.eqb_refl. lia.
                 --- apply holds_rank_snoc. left. exact H0.
                 --- apply holds_rank_snoc. right. reflexivity.
                 --- intros r Hr H. apply holds_rank_snoc in H.
                     destruct H as [H | H]; [apply (Hgap r Hr H) | lia].
                 --- apply Forall_app. split; [exact Hpre |].
                     repeat constructor. simpl. lia.
                 --- lia.
                 --- intros a b Hb Hpair.
                     apply (full_pair_stable pre _ i) in Hpair;
                       [| repeat constructor; simpl; lia | exact Hb].
                     apply (Habove a b Hb Hpair).
           ++ (* a new rank: the slots shift *)
              apply (IH (pre ++ [(i, j)])); [exact Hd | exact Hl' |]. simpl.
              assert (Hzero : count_rank i pre = 0)
                by (apply (count_rank_above i r1); [lia | exact Hpre]).
              repeat split; try assumption.
              ** lia.
              ** rewrite count_rank_snoc. destruct (Z.eqb_spec i r1); lia.
              ** rewrite count_rank_snoc, Z.eqb_refl. lia.
              ** apply holds_rank_snoc. left. exact H1.
              ** apply holds_rank_snoc. right. reflexivity.
              ** intros r Hr H. apply holds_rank_snoc in H.
                 destruct H as [H | H]; [| lia].
                 apply (holds_rank_ge r1) in H; [lia | exact Hpre].
              ** apply Forall_app. split.
                 --- apply Forall_weaken_ge with (b := r1); [lia | exact Hpre].
                 --- repeat constructor. simpl. lia.
              ** lia.
              ** intros a b Hb Hpair.
                 apply (full_pair_stable pre _ i) in Hpair;
                   [| repeat constructor; simpl; lia | exact Hb].
                 revert Hpair. apply (no_full_pair_scanned pre r0 r1); try assumption.
                 rewrite <- Hc0, <- Hc1. exact Hnot.
        -- destruct Hinv as (Hc0 & H0 & Hall & Hrest).
           pose proof (Forall_inv Hrest) as Hi. simpl in Hi.
           apply (IH (pre ++ [(i, j)])); [exact Hd | exact Hl' |]. simpl.
           assert (Hzero : count_rank i pre = 0).
           { apply (count_rank_above i r0); [lia |].
             eapply Forall_impl; [| exact Hall]. simpl. intros; lia. }
           repeat split; try assumption.
           ++ lia.
           ++ rewrite count_rank_snoc. destruct (Z.eqb_spec i r0); lia.
           ++ rewrite count_rank_snoc, Z.eqb_refl. lia.
           ++ apply holds_rank_snoc. left. exact H0.
           ++ apply holds_rank_snoc. right. reflexivity.
           ++ intros r Hr H. apply holds_rank_snoc in H.
              destruct H as [H | H]; [| lia].
              apply (holds_rank_all_equal pre r0) in H; [lia | exact Hall].
           ++ apply Forall_app. split.
              ** eapply Forall_impl; [| exact Hall]. simpl. intros; lia.
              ** repeat constructor. simpl. lia.
           ++ lia.
           ++ intros a b Hb Hpair.
              apply (full_pair_stable pre _ i) in Hpair;
                [| repeat constructor; simpl; lia | exact Hb].
              destruct Hpair as [(Hba & Ha & Hb' & _) _].
              apply (holds_rank_all_equal pre r0) in Ha, Hb';
                [lia | exact Hall | exact Hall].
    + destruct s1; simpl in Hinv; [contradiction |]. subst pre.
      apply (IH ([] ++ [(i, j)])); [exact Hd | exact Hl' |]. simpl.
      repeat split.
      * rewrite count_rank_one_eq. reflexivity.
      * left. reflexivity.
      * repeat constructor.
      * exact Hle.
Qed.

Lemma full_pair_rev (l : list card) (a b : Z) :
  full_pair (rev l) a b <-> full_pair l a b.
Proof.
  unfold full_pair, adjacent_ranks. rewrite !count_rank_rev, !holds_rank_rev.
  split; intros [(H1 & H2 & H3 & H4) H5]; (split; [| exact H5]);
    repeat split; try assumption;
    intros r Hr H; apply (H4 r Hr); apply holds_rank_rev; exact H.
Qed.

End FullHouseMore.

(** X16: on a hand sorted ascending by rank, full_house answers exactly
    when two neighbouring ranks of the hand (no rank of the hand lies between
    them) are held, the higher one exactly twice and the lower at least three
    times, or the higher exactly three times and the lower at least twice;
    the answer carries the higher rank of the highest such pair.  A triple
    and a pair separated by a card of another rank are not found. *)
Theorem full_house_neighbouring_ranks (h : list card) :
  rank_sorted h ->
  (full_house h = None <-> forall a b, ~ full_pair h a b) /\
  (forall v, full_house h = Some v ->
             exists a b, v = RTuple FULL_H a /\ full_pair h a b /\
                         forall a' b', full_pair h a' b' -> a' <= a).
Proof.
  intros Hs.
  assert (H : full_house_scan_post (rev h) (full_house h)).
  { unfold full_house. apply (full_house_loop_scan (rev h) [] None None).
    - apply rank_sorted_desc; exact Hs.
    - reflexivity.
    - reflexivity. }
  destruct H as [[Hres Hno] | (a & b & Hres & Hpair & Hmax)]; rewrite Hres.
  - split; [| discriminate]. split; [| reflexivity].
    intros _ a b Hpair. apply (Hno a b). apply full_pair_rev. exact Hpair.
  - split.
    + split; [discriminate |]. intros Hno. exfalso.
      apply (Hno a b). apply full_pair_rev. exact Hpair.
    + intros v Hv. injection Hv as <-. exists a, b. split; [reflexivity |].
      split; [apply full_pair_rev; exact Hpair |].
      intros a' b' H'. apply (Hmax a' b'). apply full_pair_rev. exact H'.
Qed.

Lemma full_house_neighbouring_ranks_witness :
  (full_house [(5, 0); (5, 1); (12, 0); (13, 0); (13, 1); (13, 2)] = None <->
   forall a b, ~ full_pair [(5, 0); (5, 1); (12, 0); (13, 0); (13, 1); (13, 2)] a b) /\
  (forall v, full_house [(5, 0); (5, 1); (12, 0); (13, 0); (13, 1); (13, 2)] = Some v ->
             exists a b,
               v = RTuple FULL_H a /\
               full_pair [(5, 0); (5, 1); (12, 0); (13, 0); (13, 1); (13, 2)] a b /\
               forall a' b',
                 full_pair [(5, 0); (5, 1); (12, 0); (13, 0); (13, 1); (13, 2)] a' b' ->
                 a' <= a).
Proof.
  apply full_house_neighbouring_ranks.
  unfold rank_sorted. repeat constructor; simpl; lia.
Defined.

Lemma straight_never_wheel_witness :
  straight (low_aces [(2, 0); (3, 0); (4, 0); (5, 1); (6, 1); (14, 2)])
    = Some (RTuple STRAIGHT 6) /\ 6 <= 6.
Proof.
  split; [reflexivity |].
  apply (straight_never_wheel [(2, 0); (3, 0); (4, 0); (5, 1); (6, 1); (14, 2)] STRAIGHT 6).
  - repeat constructor; simpl; lia.
  - reflexivity.
Defined.

(** ** hand_rank: a high card means that nothing else is there *)
Section HighCardOnly.

Lemma of_kind_sorted_none (h : list card) (num : Z) :
  rank_sorted h -> In num [2; 3; 4] -> of_kind h num = Ok None ->
  forall r, count_rank r h < num.
Proof.
  intros Hs Hnum.
  assert (H2 : 2 <= num) by (simpl in Hnum; lia).
  destruct (of_kind_sorted_post num h H2 Hs) as [[_ Hlow] | (r & Hres & _)].
  - intros _. exact Hlow.
  - rewrite Hres. simpl in Hnum.
    destruct Hnum as [<- | [<- | [<- | []]]]; discriminate.
Qed.

Lemma flush_sorted_none (h : list card) :
  rank_sorted h -> Forall suit_ok h -> flush h = Ok None ->
  forall s, count_suit s h < 5.
Proof.
  intros Hs Hsuit Hnone s.
  assert (H : flush_post (rev h) (flush h)).
  { unfold flush. apply (flush_loop_post (rev h) [] None None None None).
    - apply rank_sorted_desc; exact Hs.
    - apply Forall_rev; exact Hsuit.
    - reflexivity.
    - simpl. auto. }
  rewrite Hnone in H. destruct H as [[_ Hlow] | (s' & t & Hres & _)]; [| discriminate].
  destruct (Z_le_dec 0 s) as [H0 |]; [destruct (Z_le_dec s 3) as [H3 |] |].
  - rewrite <- count_suit_rev. apply Hlow. lia.
  - rewrite count_suit_outside; [lia | exact Hsuit | lia].
  - rewrite count_suit_outside; [lia | exact Hsuit | lia].
Qed.

Lemma straight_sorted_none (l : list card) :
  rank_sorted l -> straight l = None -> forall t, ~ run_of_five l t.
Proof.
  intros Hs Hnone t Hrun.
  assert (H : straight_post (rev l) (straight l)).
  { unfold straight. apply (straight_loop_post (rev l) [] None).
    - apply rank_sorted_desc; exact Hs.
    - reflexivity.
    - split; [apply no_run_nil | reflexivity]. }
  rewrite Hnone in H. destruct H as [[_ Hno] | (t' & Hres & _)]; [| discriminate].
  apply (Hno t). apply run_of_five_rev. exact Hrun.
Qed.

End HighCardOnly.

(** X17: when hand_rank answers category HIGH_CARD for a parsed hand, the
    hand holds no two cards of the same rank, no five cards of one suit and,
    counting the low cards that stand for the aces, no five consecutive
    ranks. *)
Theorem hand_rank_high_card_only (hand : list string) (h : list card) (t : Z) :
  scrub_hand hand = Ok h ->
  hand_rank hand = Ok (Some (RTuple HIGH_CARD t)) ->
  (forall r, count_rank r h < 2) /\
  (forall s, count_suit s h < 5) /\
  (forall t', ~ run_of_five (low_aces h) t').
Proof.
  intros Hscrub. unfold hand_rank. rewrite Hscrub. cbn [bind if_none].
  destruct (scrub_hand_sorted hand h Hscrub) as [Htuple Hs].
  assert (Hsuit : Forall suit_ok h).
  { eapply Forall_impl; [| apply (scrub_hand_suits hand h Hscrub)].
    intros x [Hx _]. exact Hx. }
  assert (Hs' : rank_sorted (low_aces h)).
  { apply tuple_sorted_rank_sorted. apply (low_aces_sorted_perm h Htuple). }
  assert (Hsuit' : Forall suit_ok (low_aces h)).
  { apply low_aces_Forall; [| exact Hsuit].
    intros x Hx. rewrite Forall_forall in Hsuit. apply (Hsuit x Hx). }
  destruct (straight_flush (low_aces h)) as [[v |] | e] eqn:E1;
    cbn [bind if_none]; [| | discriminate].
  { intros H. injection H as ->.
    destruct (straight_flush_sorted_sound _ _ _ Hs' Hsuit' E1) as [Hc _]. discriminate. }
  destruct (of_kind h 4) as [[v |] | e] eqn:E2; cbn [bind if_none]; [| | discriminate].
  { intros H. injection H as ->.
    destruct (of_kind_sorted_sound h 4 _ _ Hs ltac:(simpl; auto) E2) as [Hin _].
    simpl in Hin. destruct Hin as [Hin | [Hin | [Hin | []]]]; inversion Hin. }
  destruct (full_house h) as [v |] eqn:E3; cbn [bind if_none].
  { intros H. injection H as ->.
    destruct (full_house_sorted_sound h _ _ Hs E3) as [Hc _]. discriminate. }
  destruct (flush h) as [[v |] | e] eqn:E4; cbn [bind if_none]; [| | discriminate].
  { intros H. injection H as ->.
    destruct (flush_sorted_sound h _ _ Hs Hsuit E4) as [Hc _]. discriminate. }
  destruct (straight (low_aces h)) as [v |] eqn:E5; cbn [bind if_none].
  { intros H. injection H as ->.
    destruct (straight_sorted_sound _ _ _ Hs' E5) as [Hc _]. discriminate. }
  destruct (of_kind h 3) as [[v |] | e] eqn:E6; cbn [bind if_none]; [| | discriminate].
  { intros H. injection H as ->.
    destruct (of_kind_sorted_sound h 3 _ _ Hs ltac:(simpl; auto) E6) as [Hin _].
    simpl in Hin. destruct Hin as [Hin | [Hin | [Hin | []]]]; inversion Hin. }
  destruct (two_pair h) as [v |] eqn:E7; cbn [bind if_none].
  { intros H. injection H as ->.
    destruct (two_pair_sorted_sound h _ _ Hs E7) as [Hc _]. discriminate. }
  destruct (of_kind h 2) as [[v |] | e] eqn:E8; cbn [bind if_none]; [| | discriminate].
  { intros H. injection H as ->.
    destruct (of_kind_sorted_sound h 2 _ _ Hs ltac:(simpl; auto) E8) as [Hin _].
    simpl in Hin. destruct Hin as [Hin | [Hin | [Hin | []]]]; inversion Hin. }
  intros _. split; [| split].
  - apply (of_kind_sorted_none h 2 Hs); [simpl; auto | exact E8].
  - apply (flush_sorted_none h Hs Hsuit E4).
  - apply (straight_sorted_none _ Hs' E5).
Qed.

Lemma hand_rank_high_card_only_witness :
  (forall r, count_rank r [(2, 1); (3, 1); (4, 1); (6, 0); (7, 2)] < 2) /\
  (forall s, count_suit s [(2, 1); (3, 1); (4, 1); (6, 0); (7, 2)] < 5) /\
  (forall t', ~ run_of_five (low_aces [(2, 1); (3, 1); (4, 1); (6, 0); (7, 2)]) t').
Proof.
  apply (hand_rank_high_card_only Hands.sh _ 2); reflexivity.
Defined.

(** ** Tokens that are not two characters long *)
Section TokenLength.

Lemma token_card_length (x : string) (c : card) :
  token_card x = Some c -> String.length x = 2%nat.
Proof.
  unfold token_card, card_of_token.
  destruct x as [| r [| s [| u rest]]]; try discriminate. reflexivity.
Qed.

End TokenLength.

(** X18: a hand with a token that is not exactly two characters long (the
    "10D" of the docstring of poker, or an empty string) makes scrub_hand,
    and so hand_rank, raise KeyError. *)
Theorem scrub_hand_token_length (hand : list string) (x : string) :
  In x hand -> String.length x <> 2%nat ->
  scrub_hand hand = Err KeyError /\ hand_rank hand = Err KeyError.
Proof.
  intros Hin Hlen.
  assert (H : scrub_hand hand = Err KeyError).
  { apply scrub_hand_error. split; [reflexivity |]. exists x. split; [exact Hin |].
    destruct (token_card x) as [c |] eqn:E; [| reflexivity].
    apply token_card_length in E. contradiction. }
  split; [exact H |]. unfold hand_rank. rewrite H. reflexivity.
Qed.

Lemma scrub_hand_token_length_witness :
  scrub_hand ["8D"; "9D"; "10D"]%string = Err KeyError /\
  hand_rank ["8D"; "9D"; "10D"]%string = Err KeyError.
Proof.
  apply (scrub_hand_token_length ["8D"; "9D"; "10D"]%string "10D"%string).
  - simpl. auto.
  - simpl. lia.
Defined.

(** ** poker: answers that cannot be compared *)
Section Mixed.
Context {A : Type} (key : A -> result (option rankval)).

Lemma py_gt_same_kind (a b : option rankval) :
  (same_kind a b = false -> py_gt a b = Err TypeError) /\
  (same_kind a b = true -> exists g, py_gt a b = Ok g).
Proof.
  destruct a as [[x | c t] |], b as [[y | c' t'] |]; simpl;
    split; intros H; try discriminate; try reflexivity; eauto.
Qed.

Lemma same_kind_differs (v a b : option rankval) :
  same_kind a b = true -> same_kind v b = false -> same_kind v a = false.
Proof.
  destruct v as [[? | ? ?] |], a as [[? | ? ?] |], b as [[? | ? ?] |]; simpl;
    intros; congruence.
Qed.

Lemma max_loop_mixed (items : list A) :
  forall m mv,
    Forall (fun x => exists v, key x = Ok v) items ->
    Exists (fun x => exists v, key x = Ok v /\ same_kind v mv = false) items ->
    max_loop key items m mv = Err TypeError.
Proof.
  induction items as [| item rest IH]; intros m mv Hok Hex.
  - inversion Hex.
  - pose proof (Forall_inv Hok) as [val Hval].
    pose proof (Forall_inv_tail Hok) as Hrest.
    cbn [max_loop]. rewrite Hval. cbn [bind].
    destruct (same_kind val mv) eqn:Hkind.
    + destruct (proj2 (py_gt_same_kind val mv) Hkind) as [g Hg]. rewrite Hg.
      cbn [bind].
      assert (Hex' : Exists (fun x => exists v, key x = Ok v /\ same_kind v mv = false)
                            rest).
      { inversion Hex as [? ? (v & Hv & Hk) | ? ? H]; subst; [| exact H].
        rewrite Hval in Hv. injection Hv as <-. congruence. }
      destruct g; apply IH; try exact Hrest; try exact Hex'.
      eapply Exists_impl; [| exact Hex'].
      intros x (v & Hv & Hk). exists v. split; [exact Hv |].
      apply (same_kind_differs v val mv); assumption.
    + rewrite (proj1 (py_gt_same_kind val mv) Hkind). reflexivity.
Qed.

Lemma max_key_mixed (items : list A) (x y : A) (n c t : Z) :
  Forall (fun z => exists v, key z = Ok v) items ->
  In x items -> key x = Ok (Some (RInt n)) ->
  In y items -> key y = Ok (Some (RTuple c t)) ->
  max_key key items = Err TypeError.
Proof.
  intros Hok Hx Hkx Hy Hky.
  destruct items as [| item rest]; [contradiction |].
  pose proof (Forall_inv Hok) as [val Hval].
  pose proof (Forall_inv_tail Hok) as Hrest.
  cbn [max_key]. rewrite Hval. cbn [bind].
  apply max_loop_mixed; [exact Hrest |]. apply Exists_exists.
  destruct val as [[n' | c' t'] |].
  - destruct Hy as [-> | Hy]; [congruence |].
    exists y. split; [exact Hy |]. eexists. split; [exact Hky | reflexivity].
  - destruct Hx as [-> | Hx]; [congruence |].
    exists x. split; [exact Hx |]. eexists. split; [exact Hkx | reflexivity].
  - destruct Hx as [-> | Hx]; [congruence |].
    exists x. split; [exact Hx |]. eexists. split; [exact Hkx | reflexivity].
Qed.

End Mixed.

(** X19: when every hand of the sequence parses, one of them is a royal
    flush (ranked as the bare integer) and another one is ranked as a tuple,
    poker raises TypeError, wherever the two hands stand in the sequence. *)
Theorem poker_royal_flush_type_error
  (hands : list (list string)) (x y : list string) (n c t : Z) :
  Forall (fun h => exists v, hand_rank h = Ok v) hands ->
  In x hands -> hand_rank x = Ok (Some (RInt n)) ->
  In y hands -> hand_rank y = Ok (Some (RTuple c t)) ->
  poker hands = Err TypeError.
Proof.
  intros Hok Hx Hkx Hy Hky. unfold poker.
  apply (max_key_mixed hand_rank hands x y n c t); assumption.
Qed.

Lemma poker_royal_flush_type_error_witness :
  poker [Hands.fk; Hands.sf; Hands.royal] = Err TypeError.
Proof.
  apply (poker_royal_flush_type_error
           [Hands.fk; Hands.sf; Hands.royal] Hands.royal Hands.fk 9 7 9).
  - repeat constructor; eexists; reflexivity.
  - simpl. auto.
  - reflexivity.
  - simpl. auto.
  - reflexivity.
Defined.
